(* Verification of the authentication core of medicarehub-draft:
   src/server/services/authService.ts, src/server/middleware/auth.ts,
   src/server/routes/auth.ts and the MemStorage user lookups of
   src/server/storage.ts. *)

From stdpp Require Import base gmap strings list.
From Stdlib Require Import ZArith String Ascii Lia.

Open Scope string_scope.
Open Scope Z_scope.

(* ------------------------------------------------------------------ *)
(** * JavaScript values read from an object literal                     *)
(* ------------------------------------------------------------------ *)

(** Reading [obj[k]] on a plain object literal yields an own property, a
    property inherited from [Object.prototype] (a function, or the
    prototype object itself for [__proto__]), or [undefined].  An inherited
    value is kept with the string its [ToPrimitive] conversion yields
    ([valueOf] returns the object itself, so [toString] is used). *)
Inductive jsval :=
| JNum (z : Z)
| JObj (prim : string)
| JUndefined.

(** Property names every object literal inherits from [Object.prototype]. *)
Definition object_prototype_keys : list string :=
  ["constructor"; "__defineGetter__"; "__defineSetter__"; "hasOwnProperty";
   "__lookupGetter__"; "__lookupSetter__"; "isPrototypeOf";
   "propertyIsEnumerable"; "toString"; "valueOf"; "__proto__";
   "toLocaleString"].

(** [v || 0]: falsy values ([undefined], [0]) become [0]. *)
Definition js_or_zero (v : jsval) : jsval :=
  match v with
  | JUndefined => JNum 0
  | JNum 0 => JNum 0
  | _ => v
  end.

(** ToNumber: an object (function) converts to NaN, written [None]. *)
Definition js_to_number (v : jsval) : option Z :=
  match v with
  | JNum z => Some z
  | JObj _ => None
  | JUndefined => None
  end.

(** [a < b] on two strings: lexicographic on the code units (the strings
    compared here are ASCII). *)
Fixpoint js_string_lt (a b : string) : bool :=
  match a, b with
  | EmptyString, EmptyString => false
  | EmptyString, String _ _ => true
  | String _ _, EmptyString => false
  | String c a', String d b' =>
      if N.ltb (N_of_ascii c) (N_of_ascii d) then true
      else if N.eqb (N_of_ascii c) (N_of_ascii d) then js_string_lt a' b'
      else false
  end.

(** [a >= b] on JavaScript values: both sides are converted to primitives;
    two strings compare as strings ([!(a < b)]); otherwise both are
    converted to numbers and the result is false as soon as one side is
    NaN. *)
Definition js_ge (a b : jsval) : bool :=
  match a, b with
  | JObj x, JObj y => negb (js_string_lt x y)
  | _, _ =>
      match js_to_number a, js_to_number b with
      | Some x, Some y => Z.leb y x
      | _, _ => false
      end
  end.

(* ------------------------------------------------------------------ *)
(** * Authorization Gate (middleware/auth.ts, [authorize])              *)
(* ------------------------------------------------------------------ *)

(** [String(Object.prototype[k])] for an inherited property name [k]: the
    getter [__proto__] yields [Object.prototype] itself, [constructor] is
    the function [Object], and every other name a native method of that
    name. *)
Definition inherited_primitive (k : string) : string :=
  if String.eqb k "__proto__" then "[object Object]"
  else if String.eqb k "constructor" then "function Object() { [native code] }"
  else "function " ++ k ++ "() { [native code] }".

(** [roleHierarchy[k]] for the literal
    [{client: 1, pharmacy_seller: 2, pharmacy_owner: 3, super_admin: 4}]. *)
Definition roleHierarchy (k : string) : jsval :=
  if String.eqb k "client" then JNum 1
  else if String.eqb k "pharmacy_seller" then JNum 2
  else if String.eqb k "pharmacy_owner" then JNum 3
  else if String.eqb k "super_admin" then JNum 4
  else if existsb (String.eqb k) object_prototype_keys then JObj (inherited_primitive k)
  else JUndefined.

(** [roleHierarchy[role] || 0] *)
Definition role_level (r : string) : jsval := js_or_zero (roleHierarchy r).

(** The [req.user] attached by [authenticate]. *)
Record AuthUser := mkAuthUser {
  au_userId : string;
  au_email : option string;
  au_role : string
}.

(** [requiredRoles: string | string[]] *)
Inductive RequiredRoles :=
| OneRole (r : string)
| ManyRoles (rs : list string).

Definition roles_of (req : RequiredRoles) : list string :=
  match req with
  | OneRole r => [r]
  | ManyRoles rs => rs
  end.

Inductive GateResult :=
| GateNext
| Gate401 (message : string)
| Gate403 (message : string).

(** [authorize(requiredRoles)(req, res, next)] *)
Definition authorize (requiredRoles : RequiredRoles) (user : option AuthUser)
  : GateResult :=
  match user with
  | None => Gate401 "Authentication required"
  | Some u =>
      let roles := roles_of requiredRoles in
      let userLevel := role_level (au_role u) in
      let hasAccess :=
        existsb (fun role => js_ge userLevel (role_level role)) roles in
      if negb hasAccess then Gate403 "Insufficient permissions" else GateNext
  end.

(** [AuthService.hasPermission(userRole, requiredRole)]: the same literal
    with the keys in the opposite order. *)
Definition hasPermission (userRole requiredRole : string) : bool :=
  js_ge (role_level userRole) (role_level requiredRole).

(** The four roles of the fixed hierarchy and their numeric levels. *)
Definition known_roles : list string :=
  ["client"; "pharmacy_seller"; "pharmacy_owner"; "super_admin"].

Definition known_level (r : string) : Z :=
  if String.eqb r "client" then 1
  else if String.eqb r "pharmacy_seller" then 2
  else if String.eqb r "pharmacy_owner" then 3
  else if String.eqb r "super_admin" then 4
  else 0.

(** Minimum level among a non-empty list of required roles. *)
Fixpoint min_level (rs : list string) : Z :=
  match rs with
  | [] => 0
  | [r] => known_level r
  | r :: rs' => Z.min (known_level r) (min_level rs')
  end.

(* ------------------------------------------------------------------ *)
(** * Configuration and signed tokens                                   *)
(* ------------------------------------------------------------------ *)

(** The environment variables read by the two modules. *)
Record Env := mkEnv {
  JWT_ACCESS_SECRET : option string;
  JWT_REFRESH_SECRET : option string;
  JWT_SECRET : option string
}.

(** [process.env.X || fallback]: an unset or empty variable falls back. *)
Definition env_or (v : option string) (fallback : string) : string :=
  match v with
  | Some s => if String.eqb s "" then fallback else s
  | None => fallback
  end.

Definition accessTokenSecret (env : Env) : string :=
  env_or (JWT_ACCESS_SECRET env) "access-secret-key".
Definition refreshTokenSecret (env : Env) : string :=
  env_or (JWT_REFRESH_SECRET env) "refresh-secret-key".
(** The secret of [extractUserFromToken] in the middleware. *)
Definition middlewareSecret (env : Env) : string :=
  env_or (JWT_SECRET env) "uzpharm-digital-secret-key-2024".

(** A signed JWT: its claim set and the key it was signed with.  The raw
    token string is an injective encoding of this record, so string
    equality (as used by [Set<string>]) is record equality. *)
Record Token := mkToken {
  tk_userId : string;
  tk_email : option string;
  tk_role : string;
  tk_type : string;
  tk_iss : option string;
  tk_aud : option string;
  tk_iat : Z;
  tk_exp : Z;
  tk_key : string
}.

#[global] Instance Token_eq_dec : EqDecision Token.
Proof. intros [] []; solve_decision. Defined.

(** Clock: milliseconds, as [Date.getTime()]; JWT times are seconds. *)
Definition jwt_seconds (now : Z) : Z := now / 1000.

Definition opt_string_eqb (a b : option string) : bool :=
  match a, b with
  | Some x, Some y => String.eqb x y
  | None, None => true
  | _, _ => false
  end.

(** [jwt.verify(token, secret, options)]: the signature must check under
    [secret], the token must not be expired ([now >= exp] is rejected),
    and issuer/audience must match when the options name them. *)
Definition jwt_verify (t : Token) (secret : string)
    (options : option (string * string)) (now : Z) : option Token :=
  if negb (String.eqb (tk_key t) secret) then None
  else if Z.leb (tk_exp t) (jwt_seconds now) then None
  else match options with
       | None => Some t
       | Some (iss, aud) =>
           if opt_string_eqb (tk_iss t) (Some iss)
              && opt_string_eqb (tk_aud t) (Some aud)
           then Some t else None
       end.

Definition issuer : string := "uzpharm-digital".
Definition audience : string := "uzpharm-users".

(* ------------------------------------------------------------------ *)
(** * Users and the in-memory Credential Store (storage.ts, MemStorage)  *)
(* ------------------------------------------------------------------ *)

(** A JavaScript string used as a condition: [""] is falsy. *)
Definition js_truthy_str (v : option string) : option string :=
  match v with
  | Some s => if String.eqb s "" then None else Some s
  | None => None
  end.

Record User := mkUser {
  u_id : string;
  u_email : option string;
  u_phone : option string;
  u_passwordHash : option string;
  u_role : string;
  u_isActive : bool;
  u_lastLoginAt : option Z
}.

(** MemStorage keeps one object per user; [usersByEmail] and
    [usersByPhone] point at the same objects as [users], so the index maps
    hold the user id and an update through [users] is seen through them. *)
Record UserStore := mkUserStore {
  users : gmap string User;
  usersByEmail : gmap string string;
  usersByPhone : gmap string string
}.

(** [getUserByEmail(email)]: [usersByEmail.get(email)]. *)
Definition getUserByEmail (st : UserStore) (email : string) : option User :=
  usersByEmail st !! email ≫= fun id => users st !! id.

(** [x.includes('@')] *)
Fixpoint includes_at (x : string) : bool :=
  match x with
  | EmptyString => false
  | String c x' => Ascii.eqb c "@"%char || includes_at x'
  end.

(** [getUserByEmailOrPhone(x)]: [x.includes('@')] picks the index. *)
Definition getUserByEmailOrPhone (st : UserStore) (x : string) : option User :=
  if includes_at x
  then usersByEmail st !! x ≫= fun id => users st !! id
  else usersByPhone st !! x ≫= fun id => users st !! id.

(** The writes [users.set(userId, user)], [if (user.email)
    usersByEmail.set(user.email, user)] and [if (user.phone)
    usersByPhone.set(user.phone, user)] that end the update operations:
    the index entries of the user's email and phone are re-pointed at it. *)
Definition store_user (st : UserStore) (userId : string) (user : User)
  : UserStore :=
  mkUserStore (<[userId := user]> (users st))
    (match js_truthy_str (u_email user) with
     | Some e => <[e := userId]> (usersByEmail st)
     | None => usersByEmail st
     end)
    (match js_truthy_str (u_phone user) with
     | Some p => <[p := userId]> (usersByPhone st)
     | None => usersByPhone st
     end).

(** [updateUserLastLogin(userId)] *)
Definition updateUserLastLogin (st : UserStore) (userId : string) (now : Z)
  : UserStore :=
  match users st !! userId with
  | Some u =>
      store_user st userId
        (mkUser (u_id u) (u_email u) (u_phone u) (u_passwordHash u)
           (u_role u) (u_isActive u) (Some now))
  | None => st
  end.

(* ------------------------------------------------------------------ *)
(** * Token Service (authService.ts)                                    *)
(* ------------------------------------------------------------------ *)

Definition generateAccessToken (env : Env) (now : Z) (user : User) : Token :=
  mkToken (u_id user) (u_email user) (u_role user) "access"
    (Some issuer) (Some audience)
    (jwt_seconds now) (jwt_seconds now + 15 * 60) (accessTokenSecret env).

Definition generateRefreshToken (env : Env) (now : Z) (user : User) : Token :=
  mkToken (u_id user) (u_email user) (u_role user) "refresh"
    (Some issuer) (Some audience)
    (jwt_seconds now) (jwt_seconds now + 7 * 24 * 60 * 60)
    (refreshTokenSecret env).

(** [Set<string>.add]: no duplicate, insertion order kept. *)
Definition set_add (t : Token) (s : list Token) : list Token :=
  if decide (t ∈ s) then s else s ++ [t].

Definition set_has (t : Token) (s : list Token) : bool :=
  bool_decide (t ∈ s).

(** [verifyAccessToken(token)] over the service's [blacklistedTokens]. *)
Definition verifyAccessToken (blacklistedTokens : list Token) (env : Env)
    (now : Z) (token : Token) : option Token :=
  if set_has token blacklistedTokens then None
  else match jwt_verify token (accessTokenSecret env)
                 (Some (issuer, audience)) now with
       | Some decoded =>
           if String.eqb (tk_type decoded) "access" then Some decoded else None
       | None => None
       end.

(** [verifyRefreshToken(token)] *)
Definition verifyRefreshToken (blacklistedTokens : list Token) (env : Env)
    (now : Z) (token : Token) : option Token :=
  if set_has token blacklistedTokens then None
  else match jwt_verify token (refreshTokenSecret env)
                 (Some (issuer, audience)) now with
       | Some decoded =>
           if String.eqb (tk_type decoded) "refresh" then Some decoded else None
       | None => None
       end.

(** [blacklistToken(token)] and [logout(accessToken, refreshToken)] *)
Definition blacklistToken (token : Token) (blacklistedTokens : list Token)
  : list Token := set_add token blacklistedTokens.

Definition logout (accessToken refreshToken : Token)
    (blacklistedTokens : list Token) : list Token :=
  blacklistToken refreshToken (blacklistToken accessToken blacklistedTokens).

(* ------------------------------------------------------------------ *)
(** * Request authentication (middleware/auth.ts)                       *)
(* ------------------------------------------------------------------ *)

(** The token sources [authenticate] reads: the [accessToken] cookie and
    the [Authorization] header with its ["Bearer "] prefix removed. *)
Record AuthRequest := mkAuthRequest {
  cookie_accessToken : option Token;
  cookie_refreshToken : option Token;
  bearer_token : option Token
}.

Inductive AuthnResult :=
| Authn401 (message : string)
| AuthnNext (user : AuthUser).

(** [extractUserFromToken(token)]: [jwt.verify] under the middleware's own
    secret, with no issuer or audience option. *)
Definition extractUserFromToken (env : Env) (now : Z) (token : Token)
  : option AuthUser :=
  match jwt_verify token (middlewareSecret env) None now with
  | Some decoded =>
      Some (mkAuthUser (tk_userId decoded) (tk_email decoded) (tk_role decoded))
  | None => None
  end.

(** [storage.getUserByEmail(userInfo.email)]; an [undefined] email is no
    key of [usersByEmail]. *)
Definition getUserByEmail_opt (st : UserStore) (email : option string)
  : option User :=
  match email with
  | Some e => getUserByEmail st e
  | None => None
  end.

(** [authenticate(req, res, next)], reading the module-level
    [blacklistedTokens] set of middleware/auth.ts. *)
Definition authenticate (mwBlacklistedTokens : list Token) (env : Env)
    (now : Z) (st : UserStore) (req : AuthRequest) : AuthnResult :=
  let token := match cookie_accessToken req with
               | Some t => Some t
               | None => bearer_token req
               end in
  match token with
  | None => Authn401 "Access token required"
  | Some token =>
      if set_has token mwBlacklistedTokens then Authn401 "Token has been revoked"
      else match extractUserFromToken env now token with
           | None => Authn401 "Invalid or expired token"
           | Some userInfo =>
               match getUserByEmail_opt st (au_email userInfo) with
               | Some user =>
                   if u_isActive user then AuthnNext userInfo
                   else Authn401 "User account not found or inactive"
               | None => Authn401 "User account not found or inactive"
               end
           end
  end.

(** The exported [blacklistToken] of middleware/auth.ts, with its trim to
    the 5000 most recent entries once the set exceeds 10000. *)
Definition mw_blacklistToken (token : Token) (mwBlacklistedTokens : list Token)
  : list Token :=
  let s := set_add token mwBlacklistedTokens in
  if Z.ltb 10000 (Z.of_nat (List.length s))
  then drop (Z.to_nat (Z.of_nat (List.length s) - 5000)) s else s.

(* ------------------------------------------------------------------ *)
(** * Rate Limiter (middleware/auth.ts)                                 *)
(* ------------------------------------------------------------------ *)

Record Attempt := mkAttempt {
  count : Z;
  lastAttempt : Z
}.

Definition RATE_LIMIT_WINDOW : Z := 15 * 60 * 1000.
Definition MAX_FAILED_ATTEMPTS : Z := 5.

Inductive RateResult :=
| RateNext
(** HTTP 429, "Too many failed attempts. Try again in N minutes." *)
| Rate429 (minutesLeft : Z).

(** [Math.ceil(x / 60000)] for an integer [x]. *)
Definition ceil_minutes (x : Z) : Z := - ((- x) / 60000).

(** [authRateLimit(req, res, next)] for the client key [clientId]. *)
Definition authRateLimit (clientId : string) (now : Z)
    (failedAttempts : gmap string Attempt)
  : RateResult * gmap string Attempt :=
  match failedAttempts !! clientId with
  | Some attempts =>
      if Z.ltb RATE_LIMIT_WINDOW (now - lastAttempt attempts)
      then (RateNext, delete clientId failedAttempts)
      else if Z.leb MAX_FAILED_ATTEMPTS (count attempts)
      then (Rate429 (ceil_minutes
                       (RATE_LIMIT_WINDOW - (now - lastAttempt attempts))),
            failedAttempts)
      else (RateNext, failedAttempts)
  | None => (RateNext, failedAttempts)
  end.

(** [trackAuthFailure(req)] *)
Definition trackAuthFailure (clientId : string) (now : Z)
    (failedAttempts : gmap string Attempt) : gmap string Attempt :=
  match failedAttempts !! clientId with
  | Some attempts =>
      <[clientId := mkAttempt (count attempts + 1) now]> failedAttempts
  | None => <[clientId := mkAttempt 1 now]> failedAttempts
  end.

(** [clearAuthFailures(req)] *)
Definition clearAuthFailures (clientId : string)
    (failedAttempts : gmap string Attempt) : gmap string Attempt :=
  delete clientId failedAttempts.

(** One request to an auth route that ends in an authentication failure:
    the router runs [authRateLimit] first; when it lets the request
    through, the handler fails and calls [trackAuthFailure] at the same
    instant. *)
Definition failed_auth_request (clientId : string) (now : Z)
    (failedAttempts : gmap string Attempt)
  : RateResult * gmap string Attempt :=
  match authRateLimit clientId now failedAttempts with
  | (RateNext, m) => (RateNext, trackAuthFailure clientId now m)
  | (r, m) => (r, m)
  end.

(* ------------------------------------------------------------------ *)
(** * One-Time-Code Issuer (authService.ts)                             *)
(* ------------------------------------------------------------------ *)

Record OTPSession := mkOTPSession {
  s_email : option string;
  s_phone : option string;
  s_code : string;
  s_attempts : Z;
  s_createdAt : Z;
  s_expiresAt : Z;
  s_verified : bool
}.

Definition otpExpiry : Z := 5 * 60 * 1000.
Definition maxOtpAttempts : Z := 3.

(** The [otpSessions] map of the service. *)
Abbreviation Sessions := (gmap string OTPSession).

Record VerifyResult := mkVerifyResult {
  vr_success : bool;
  vr_message : string;
  vr_email : option string;
  vr_phone : option string
}.

Definition verify_fail (message : string) : VerifyResult :=
  mkVerifyResult false message None None.

Definition with_attempts (s : OTPSession) (a : Z) : OTPSession :=
  mkOTPSession (s_email s) (s_phone s) (s_code s) a (s_createdAt s)
    (s_expiresAt s) (s_verified s).

Definition with_verified (s : OTPSession) : OTPSession :=
  mkOTPSession (s_email s) (s_phone s) (s_code s) (s_attempts s)
    (s_createdAt s) (s_expiresAt s) true.

(** [verifyOTP(sessionId, code)] at wall-clock time [now]; the session
    object is mutated in place, so the map is updated at [sessionId]. *)
Definition verifyOTP (otpSessions : Sessions) (sessionId code : string)
    (now : Z) : VerifyResult * Sessions :=
  match otpSessions !! sessionId with
  | None => (verify_fail "Invalid or expired OTP session", otpSessions)
  | Some session =>
      if Z.ltb (s_expiresAt session) now then
        (verify_fail "OTP has expired", delete sessionId otpSessions)
      else if s_verified session then
        (verify_fail "OTP already used", otpSessions)
      else if Z.leb maxOtpAttempts (s_attempts session) then
        (verify_fail "Too many failed attempts", delete sessionId otpSessions)
      else
        let session1 := with_attempts session (s_attempts session + 1) in
        if negb (String.eqb (s_code session1) code) then
          (verify_fail "Invalid OTP code", <[sessionId := session1]> otpSessions)
        else
          let session2 := with_verified session1 in
          (mkVerifyResult true "OTP verified successfully"
             (s_email session2) (s_phone session2),
           <[sessionId := session2]> otpSessions)
  end.

(** [sendEmailOTP(email)]: [sessionId] is the fresh [crypto.randomUUID()]
    and [code] the fresh [generateOTP()]; the notifier has no effect on
    the state. *)
Definition sendEmailOTP (otpSessions : Sessions) (email sessionId code : string)
    (now : Z) : (string * Z) * Sessions :=
  let expiresAt := now + otpExpiry in
  ((sessionId, expiresAt),
   <[sessionId := mkOTPSession (Some email) None code 0 now expiresAt false]>
     otpSessions).

(** [sendSMSOTP(phone)] *)
Definition sendSMSOTP (otpSessions : Sessions) (phone sessionId code : string)
    (now : Z) : (string * Z) * Sessions :=
  let expiresAt := now + otpExpiry in
  ((sessionId, expiresAt),
   <[sessionId := mkOTPSession None (Some phone) code 0 now expiresAt false]>
     otpSessions).

(** [cleanupExpiredSessions()]: keeps the sessions with [now <= expiresAt]. *)
Definition cleanupExpiredSessions (otpSessions : Sessions) (now : Z) : Sessions :=
  filter (fun kv : string * OTPSession => now <= s_expiresAt kv.2) otpSessions.

(* ------------------------------------------------------------------ *)
(** * Auth Orchestrator (authService.ts)                                *)
(* ------------------------------------------------------------------ *)

Record LoginResult := mkLoginResult {
  lr_success : bool;
  lr_message : string;
  lr_user : option User;
  lr_accessToken : option Token;
  lr_refreshToken : option Token
}.

Definition login_fail (message : string) : LoginResult :=
  mkLoginResult false message None None None.

Section Orchestrator.

(** [bcrypt.compare(password, hash)] *)
Variable comparePassword : string -> string -> bool.

(** [loginWithPassword(email, password)] *)
Definition loginWithPassword (env : Env) (now : Z) (st : UserStore)
    (email password : string) : LoginResult * UserStore :=
  match getUserByEmail st email with
  | None => (login_fail "Invalid email or password", st)
  | Some user =>
      match js_truthy_str (u_passwordHash user) with
      | None => (login_fail "Please use OTP login for this account", st)
      | Some hash =>
          if negb (u_isActive user) then (login_fail "Account is deactivated", st)
          else if negb (comparePassword password hash) then
            (login_fail "Invalid email or password", st)
          else
            let accessToken := generateAccessToken env now user in
            let refreshToken := generateRefreshToken env now user in
            let st' := updateUserLastLogin st (u_id user) now in
            (mkLoginResult true "Login successful"
               (Some (default user (users st' !! u_id user)))
               (Some accessToken) (Some refreshToken), st')
      end
  end.

(** [loginWithOTP(sessionId)] *)
Definition loginWithOTP (env : Env) (now : Z) (st : UserStore)
    (otpSessions : Sessions) (sessionId : string)
  : LoginResult * UserStore * Sessions :=
  match otpSessions !! sessionId with
  | None => (login_fail "Invalid or unverified session", st, otpSessions)
  | Some session =>
      if negb (s_verified session) then
        (login_fail "Invalid or unverified session", st, otpSessions)
      else
        let identifier := match js_truthy_str (s_email session) with
                          | Some e => Some e
                          | None => js_truthy_str (s_phone session)
                          end in
        match identifier with
        | None => (login_fail "Invalid session data", st, otpSessions)
        | Some identifier =>
            match getUserByEmailOrPhone st identifier with
            | None => (login_fail "User not found", st, otpSessions)
            | Some user =>
                if negb (u_isActive user) then
                  (login_fail "Account is deactivated", st, otpSessions)
                else
                  let accessToken := generateAccessToken env now user in
                  let refreshToken := generateRefreshToken env now user in
                  let st' := updateUserLastLogin st (u_id user) now in
                  (mkLoginResult true "Login successful"
                     (Some (default user (users st' !! u_id user)))
                     (Some accessToken) (Some refreshToken),
                   st', delete sessionId otpSessions)
            end
        end
  end.

(** The result of [sendPasswordResetOTP(email)]. *)
Record ResetRequestResult := mkResetRequestResult {
  rr_success : bool;
  rr_message : string;
  rr_sessionId : option string
}.

(** [sendPasswordResetOTP(email)]; [sessionId] and [code] are the fresh
    values [sendEmailOTP] would draw. *)
Definition sendPasswordResetOTP (st : UserStore) (otpSessions : Sessions)
    (email sessionId code : string) (now : Z)
  : ResetRequestResult * Sessions :=
  match getUserByEmail st email with
  | None =>
      (mkResetRequestResult true
         "If the email exists, you will receive a reset code" None, otpSessions)
  | Some _ =>
      let '((sid, _), otpSessions') := sendEmailOTP otpSessions email sessionId code now in
      (mkResetRequestResult true "Password reset code sent to your email" (Some sid),
       otpSessions')
  end.

(** The JSON response of a route: HTTP status and the envelope
    [{success, message, sessionId}]; [JSON.stringify] drops a [sessionId]
    that is [undefined], written [None]. *)
Record Envelope := mkEnvelope {
  http_status : Z;
  env_success : bool;
  env_message : string;
  env_sessionId : option string
}.

(** [POST /password/reset/request] (routes/auth.ts) for a body with a
    non-empty [email]. *)
Definition password_reset_request_route (st : UserStore) (otpSessions : Sessions)
    (email sessionId code : string) (now : Z) : Envelope * Sessions :=
  if String.eqb email "" then
    (mkEnvelope 400 false "Email is required" None, otpSessions)
  else
    let '(result, otpSessions') :=
      sendPasswordResetOTP st otpSessions email sessionId code now in
    (mkEnvelope 200 (rr_success result) (rr_message result) (rr_sessionId result),
     otpSessions').

(** [storage.updateUserPassword(userId, passwordHash)] *)
Definition updateUserPassword (st : UserStore) (userId passwordHash : string)
  : UserStore :=
  match users st !! userId with
  | Some u =>
      store_user st userId
        (mkUser (u_id u) (u_email u) (u_phone u) (Some passwordHash)
           (u_role u) (u_isActive u) (u_lastLoginAt u))
  | None => st
  end.

(** [storage.upsertUser(...)] with [isActive: true] and a fresh id. *)
Definition upsertUser (st : UserStore) (id : string) (email : string)
    (phone : option string) (role : string) (passwordHash : string)
  : User * UserStore :=
  let user := mkUser id (js_truthy_str (Some email)) (js_truthy_str phone)
                (js_truthy_str (Some passwordHash)) role true None in
  let byEmail := match u_email user with
                 | Some e => <[e := id]> (usersByEmail st)
                 | None => usersByEmail st
                 end in
  let byPhone := match u_phone user with
                 | Some p => <[p := id]> (usersByPhone st)
                 | None => usersByPhone st
                 end in
  (user, mkUserStore (<[id := user]> (users st)) byEmail byPhone).

Record RegistrationData := mkRegistrationData {
  rd_email : string;
  rd_phone : option string;
  rd_role : option string
}.

(** [completeRegistration(sessionId, userData)]; [passwordHash] is the
    output of [hashPassword] and [newId] the generated user id. *)
Definition completeRegistration (st : UserStore) (otpSessions : Sessions)
    (sessionId : string) (userData : RegistrationData)
    (passwordHash newId : string)
  : (bool * string * option User) * UserStore * Sessions :=
  match otpSessions !! sessionId with
  | Some session =>
      if s_verified session
         && opt_string_eqb (s_email session) (Some (rd_email userData))
      then
        let role := default "client" (js_truthy_str (rd_role userData)) in
        let '(user, st') := upsertUser st newId (rd_email userData)
                              (rd_phone userData) role passwordHash in
        ((true, "Registration completed successfully", Some user), st',
         delete sessionId otpSessions)
      else ((false, "Invalid or unverified session", None), st, otpSessions)
  | None => ((false, "Invalid or unverified session", None), st, otpSessions)
  end.

(** [resetPassword(sessionId, email, newPassword)]; [passwordHash] is the
    output of [hashPassword(newPassword)]. *)
Definition resetPassword (st : UserStore) (otpSessions : Sessions)
    (sessionId email passwordHash : string)
  : (bool * string) * UserStore * Sessions :=
  match otpSessions !! sessionId with
  | Some session =>
      if s_verified session && opt_string_eqb (s_email session) (Some email)
      then
        match getUserByEmail st email with
        | None => ((false, "User not found"), st, otpSessions)
        | Some user =>
            ((true, "Password reset successfully"),
             updateUserPassword st (u_id user) passwordHash,
             delete sessionId otpSessions)
        end
      else ((false, "Invalid or unverified session"), st, otpSessions)
  | None => ((false, "Invalid or unverified session"), st, otpSessions)
  end.

End Orchestrator.

(** [registerWithEmail(data)]: an OTP session is opened only when no user
    has the email. *)
Definition registerWithEmail (st : UserStore) (otpSessions : Sessions)
    (email sessionId code : string) (now : Z)
  : (bool * string * option string) * Sessions :=
  match getUserByEmail st email with
  | Some _ => ((false, "User already exists with this email", None), otpSessions)
  | None =>
      let '((sid, _), otpSessions') := sendEmailOTP otpSessions email sessionId code now in
      ((true, "OTP sent to your email address", Some sid), otpSessions')
  end.

(* ------------------------------------------------------------------ *)
(** * Logout over the two revocation sets                               *)
(* ------------------------------------------------------------------ *)

(** The two process-wide [Set<string>] of revoked tokens: the private
    [blacklistedTokens] of the [authService] instance and the module-level
    [blacklistedTokens] of middleware/auth.ts. *)
Record Revocation := mkRevocation {
  svc_blacklist : list Token;
  mw_blacklist : list Token
}.

(** [POST /logout] (routes/auth.ts): [authenticate] first, then
    [authService.logout] on the two cookies when both are present. *)
Definition logout_route (env : Env) (now : Z) (st : UserStore)
    (rv : Revocation) (req : AuthRequest) : Z * Revocation :=
  match authenticate (mw_blacklist rv) env now st req with
  | Authn401 _ => (401, rv)
  | AuthnNext _ =>
      match cookie_accessToken req, cookie_refreshToken req with
      | Some accessToken, Some refreshToken =>
          (200, mkRevocation (logout accessToken refreshToken (svc_blacklist rv))
                  (mw_blacklist rv))
      | _, _ => (200, rv)
      end
  end.

(* ------------------------------------------------------------------ *)
(** * The OTP session table under every operation of the service        *)
(* ------------------------------------------------------------------ *)

(** The user store, the [otpSessions] map, and the session ids that
    [crypto.randomUUID()] has already produced (a ghost component: a fresh
    UUID is never one of them). *)
Record World := mkWorld {
  w_users : UserStore;
  w_sessions : Sessions;
  w_issued : gset string
}.

(** Every stored session id was produced by [randomUUID]. *)
Definition world_wf (W : World) : Prop := dom (w_sessions W) ⊆ w_issued W.

(** One call of a service operation that reads or writes [otpSessions]. *)
Inductive otp_step : World -> World -> Prop :=
| step_verifyOTP W sid code now :
    otp_step W (mkWorld (w_users W) (verifyOTP (w_sessions W) sid code now).2
                  (w_issued W))
| step_loginWithOTP W env now sid r st' ss' :
    loginWithOTP env now (w_users W) (w_sessions W) sid = (r, st', ss') ->
    otp_step W (mkWorld st' ss' (w_issued W))
| step_completeRegistration W sid data hash newId r st' ss' :
    completeRegistration (w_users W) (w_sessions W) sid data hash newId = (r, st', ss') ->
    otp_step W (mkWorld st' ss' (w_issued W))
| step_resetPassword W sid email hash r st' ss' :
    resetPassword (w_users W) (w_sessions W) sid email hash = (r, st', ss') ->
    otp_step W (mkWorld st' ss' (w_issued W))
| step_cleanupExpiredSessions W now :
    otp_step W (mkWorld (w_users W) (cleanupExpiredSessions (w_sessions W) now)
                  (w_issued W))
| step_sendEmailOTP W email sid code now :
    sid ∉ w_issued W ->
    otp_step W (mkWorld (w_users W) (sendEmailOTP (w_sessions W) email sid code now).2
                  ({[sid]} ∪ w_issued W))
| step_sendSMSOTP W phone sid code now :
    sid ∉ w_issued W ->
    otp_step W (mkWorld (w_users W) (sendSMSOTP (w_sessions W) phone sid code now).2
                  ({[sid]} ∪ w_issued W))
| step_sendPasswordResetOTP W email sid code now :
    sid ∉ w_issued W ->
    otp_step W (mkWorld (w_users W)
                  (sendPasswordResetOTP (w_users W) (w_sessions W) email sid code now).2
                  ({[sid]} ∪ w_issued W))
| step_registerWithEmail W email sid code now :
    sid ∉ w_issued W ->
    otp_step W (mkWorld (w_users W)
                  (registerWithEmail (w_users W) (w_sessions W) email sid code now).2
                  ({[sid]} ∪ w_issued W)).

(* ------------------------------------------------------------------ *)
(** * Token refresh and optional authentication                         *)
(* ------------------------------------------------------------------ *)

(** [storage.getUser(id)]: [users.get(id)]. *)
Definition getUser (st : UserStore) (id : string) : option User :=
  users st !! id.

(** [refreshAccessToken(refreshToken)] over the service's revocation set. *)
Definition refreshAccessToken (blacklistedTokens : list Token) (env : Env)
    (now : Z) (st : UserStore) (refreshToken : Token)
  : bool * string * option Token :=
  match verifyRefreshToken blacklistedTokens env now refreshToken with
  | None => (false, "Invalid refresh token", None)
  | Some decoded =>
      match getUser st (tk_userId decoded) with
      | Some user =>
          if u_isActive user then
            (true, "Token refreshed successfully",
             Some (generateAccessToken env now user))
          else (false, "User not found or inactive", None)
      | None => (false, "User not found or inactive", None)
      end
  end.

(** [optionalAuth(req, res, next)]: always calls [next]; the result is the
    [req.user] it attaches, if any. *)
Definition optionalAuth (mwBlacklistedTokens : list Token) (env : Env)
    (now : Z) (st : UserStore) (req : AuthRequest) : option AuthUser :=
  let token := match cookie_accessToken req with
               | Some t => Some t
               | None => bearer_token req
               end in
  match token with
  | Some token =>
      if negb (set_has token mwBlacklistedTokens) then
        match extractUserFromToken env now token with
        | Some userInfo =>
            match getUserByEmail_opt st (au_email userInfo) with
            | Some user => if u_isActive user then Some userInfo else None
            | None => None
            end
        | None => None
        end
      else None
  | None => None
  end.

(* ================================================================== *)
(** * Properties                                                        *)
(* ================================================================== *)

(** ** Authorization Gate *)

Lemma existsb_eqb_elem_of (r : string) (l : list string) :
  existsb (String.eqb r) l = true <-> r ∈ l.
Proof.
  induction l as [|x l IH]; simpl.
  - rewrite elem_of_nil. split; [discriminate|done].
  - rewrite orb_true_iff, elem_of_cons, IH, String.eqb_eq. done.
Qed.

(** A role that is no inherited property name reads as its numeric level. *)
Lemma role_level_not_proto (r : string) :
  r ∉ object_prototype_keys -> role_level r = JNum (known_level r).
Proof.
  intros Hr. unfold role_level, roleHierarchy, known_level.
  destruct (String.eqb r "client"); [reflexivity|].
  destruct (String.eqb r "pharmacy_seller"); [reflexivity|].
  destruct (String.eqb r "pharmacy_owner"); [reflexivity|].
  destruct (String.eqb r "super_admin"); [reflexivity|].
  destruct (existsb (String.eqb r) object_prototype_keys) eqn:E.
  - apply existsb_eqb_elem_of in E. done.
  - reflexivity.
Qed.

Lemma role_level_proto (r : string) :
  r ∈ object_prototype_keys -> role_level r = JObj (inherited_primitive r).
Proof.
  intros Hr. unfold role_level, roleHierarchy.
  destruct (String.eqb_spec r "client") as [->|]; [vm_compute in Hr; set_solver|].
  destruct (String.eqb_spec r "pharmacy_seller") as [->|];
    [vm_compute in Hr; set_solver|].
  destruct (String.eqb_spec r "pharmacy_owner") as [->|];
    [vm_compute in Hr; set_solver|].
  destruct (String.eqb_spec r "super_admin") as [->|];
    [vm_compute in Hr; set_solver|].
  apply existsb_eqb_elem_of in Hr. rewrite Hr. reflexivity.
Qed.

Lemma known_not_proto (r : string) :
  r ∈ known_roles -> r ∉ object_prototype_keys.
Proof.
  intros Hr Hp. unfold known_roles in Hr.
  repeat (rewrite elem_of_cons in Hr; destruct Hr as [->|Hr]);
    [..|by apply elem_of_nil in Hr];
    apply existsb_eqb_elem_of in Hp; vm_compute in Hp; discriminate.
Qed.


Lemma existsb_level_min (a : Z) (rs : list string) :
  rs <> [] ->
  existsb (fun r => Z.leb (known_level r) a) rs = true <-> min_level rs <= a.
Proof.
  intros Hne. induction rs as [|r rs IH]; [done|].
  destruct rs as [|r' rs'].
  - simpl. rewrite orb_false_r, Z.leb_le. done.
  - change (min_level (r :: r' :: rs'))
      with (Z.min (known_level r) (min_level (r' :: rs'))).
    simpl existsb. rewrite orb_true_iff, Z.leb_le.
    simpl existsb in IH. rewrite IH by done. lia.
Qed.

Lemma existsb_known_levels (a : Z) (rs : list string) :
  Forall (fun r => r ∈ known_roles) rs ->
  existsb (fun role => js_ge (JNum a) (role_level role)) rs
  = existsb (fun r => Z.leb (known_level r) a) rs.
Proof.
  induction 1 as [|r rs Hr _ IH]; [reflexivity|].
  cbn [existsb]. rewrite IH, (role_level_not_proto r (known_not_proto r Hr)).
  reflexivity.
Qed.

(** C2: for a caller with one of the four roles and a non-empty list of
    required roles drawn from the four, [authorize] calls [next] exactly
    when the caller's level is at least the minimum level of the required
    roles (client=1, pharmacy_seller=2, pharmacy_owner=3, super_admin=4). *)
Theorem authorize_iff_min_level (u : AuthUser) (req : RequiredRoles)
    (Hu : au_role u ∈ known_roles)
    (Hreq : Forall (fun r => r ∈ known_roles) (roles_of req))
    (Hne : roles_of req <> []) :
  authorize req (Some u) = GateNext <->
  min_level (roles_of req) <= known_level (au_role u).
Proof.
  unfold authorize.
  rewrite (role_level_not_proto _ (known_not_proto _ Hu)).
  rewrite existsb_known_levels by exact Hreq.
  rewrite <- (existsb_level_min _ _ Hne).
  destruct (existsb _ _); simpl; split; congruence.
Qed.

(** The two cases named by the spec: [pharmacy_owner] passes a check
    requiring [pharmacy_seller]; [client] fails a check requiring
    [pharmacy_owner]. *)
Lemma authorize_iff_min_level_witness :
  authorize (OneRole "pharmacy_seller")
    (Some (mkAuthUser "u1" (Some "owner@x.com") "pharmacy_owner")) = GateNext /\
  authorize (OneRole "pharmacy_owner")
    (Some (mkAuthUser "u2" (Some "client@x.com") "client")) <> GateNext.
Proof.
  split.
  - apply (authorize_iff_min_level
             (mkAuthUser "u1" (Some "owner@x.com") "pharmacy_owner")
             (OneRole "pharmacy_seller")).
    + simpl. unfold known_roles. rewrite elem_of_cons, elem_of_cons, elem_of_cons. auto.
    + simpl. repeat constructor.
    + simpl. discriminate.
    + vm_compute. discriminate.
  - rewrite (authorize_iff_min_level
               (mkAuthUser "u2" (Some "client@x.com") "client")
               (OneRole "pharmacy_owner")).
    + vm_compute. intros H. apply H. reflexivity.
    + simpl. unfold known_roles. rewrite elem_of_cons. auto.
    + simpl. constructor; [|constructor].
      unfold known_roles. rewrite elem_of_cons, elem_of_cons, elem_of_cons. auto.
    + simpl. discriminate.
Defined.




(** ** Token Service *)

Lemma jwt_verify_Some (t d : Token) (secret : string)
    (options : option (string * string)) (now : Z) :
  jwt_verify t secret options now = Some d -> d = t.
Proof.
  unfold jwt_verify.
  destruct (negb _); [discriminate|]. destruct (Z.leb _ _); [discriminate|].
  destruct options as [[iss aud]|]; [destruct (_ && _)|]; congruence.
Qed.

(** C6: a refresh token is refused by [verifyAccessToken] and an access
    token by [verifyRefreshToken], whatever the revocation set, the
    configured secrets and the clock. *)
Theorem verify_wrong_token_type (bl : list Token) (env : Env)
    (minted now : Z) (user : User) :
  verifyAccessToken bl env now (generateRefreshToken env minted user) = None /\
  verifyRefreshToken bl env now (generateAccessToken env minted user) = None.
Proof.
  split.
  - unfold verifyAccessToken. destruct (set_has _ _); [reflexivity|].
    destruct (jwt_verify _ _ _ _) as [d|] eqn:E; [|reflexivity].
    apply jwt_verify_Some in E. subst d. reflexivity.
  - unfold verifyRefreshToken. destruct (set_has _ _); [reflexivity|].
    destruct (jwt_verify _ _ _ _) as [d|] eqn:E; [|reflexivity].
    apply jwt_verify_Some in E. subst d. reflexivity.
Qed.

(** Logout puts both tokens into the service's set, after which the
    service's own verifiers refuse both, and a second logout changes
    nothing. *)
Lemma logout_revokes_in_service (bl : list Token) (env : Env) (now : Z)
    (accessToken refreshToken : Token) :
  let bl' := logout accessToken refreshToken bl in
  accessToken ∈ bl' /\ refreshToken ∈ bl' /\
  verifyAccessToken bl' env now accessToken = None /\
  verifyRefreshToken bl' env now accessToken = None /\
  verifyAccessToken bl' env now refreshToken = None /\
  verifyRefreshToken bl' env now refreshToken = None /\
  logout accessToken refreshToken bl' = bl'.
Proof.
  assert (Hadd : forall t s, t ∈ set_add t s).
  { intros t s. unfold set_add. case_decide; [done|set_solver]. }
  assert (Hmono : forall t t' s, t ∈ s -> t ∈ set_add t' s).
  { intros t t' s H. unfold set_add. case_decide; set_solver. }
  assert (Hidem : forall t s, t ∈ s -> set_add t s = s).
  { intros t s H. unfold set_add. case_decide; done. }
  cbv zeta. unfold logout, blacklistToken.
  set (bl' := set_add refreshToken (set_add accessToken bl)).
  assert (Ha : accessToken ∈ bl') by (apply Hmono, Hadd).
  assert (Hr : refreshToken ∈ bl') by apply Hadd.
  unfold verifyAccessToken, verifyRefreshToken, set_has.
  rewrite !bool_decide_eq_true_2 by assumption.
  rewrite (Hidem accessToken bl' Ha), (Hidem refreshToken bl' Hr).
  repeat split; assumption.
Qed.

(** ** Logout and request authentication *)

(** A deployment that sets one signing secret for both modules. *)
Definition shared_secret_env : Env :=
  mkEnv (Some "shared-jwt-secret") None (Some "shared-jwt-secret").

Definition alice : User :=
  mkUser "user_1" (Some "alice@example.com") None (Some "bcrypt:Passw0rd!")
    "client" true None.

Definition alice_store : UserStore :=
  mkUserStore {[ "user_1" := alice ]} {[ "alice@example.com" := "user_1" ]} ∅.

Definition login_time : Z := 1700000000000.

(** C1: [POST /logout] with Alice's two cookies puts both tokens into the
    service's revocation set, and [verifyAccessToken] refuses the access
    token afterwards; but [authenticate] consults the middleware's own
    set, which logout never writes, so one minute later the same access
    token still authenticates Alice. *)
Theorem logout_then_authenticate_accepts_revoked :
  let accessToken := generateAccessToken shared_secret_env login_time alice in
  let refreshToken := generateRefreshToken shared_secret_env login_time alice in
  let '(status, rv) :=
    logout_route shared_secret_env login_time alice_store (mkRevocation [] [])
      (mkAuthRequest (Some accessToken) (Some refreshToken) None) in
  status = 200 /\
  set_has accessToken (svc_blacklist rv) = true /\
  set_has refreshToken (svc_blacklist rv) = true /\
  verifyAccessToken (svc_blacklist rv) shared_secret_env (login_time + 60000)
    accessToken = None /\
  mw_blacklist rv = [] /\
  authenticate (mw_blacklist rv) shared_secret_env (login_time + 60000)
    alice_store (mkAuthRequest (Some accessToken) None None)
  = AuthnNext (mkAuthUser "user_1" (Some "alice@example.com") "client").
Proof. vm_compute. repeat split. Qed.

(** ** Password login *)

(** A stand-in for [bcrypt.compare] on the concrete stores below. *)
Definition bcrypt_stub (password hash : string) : bool :=
  String.eqb hash ("bcrypt:" ++ password).

(** Bob registered through OTP only and has no password hash; Carol has
    both an email and a phone number. *)
Definition bob : User :=
  mkUser "user_2" (Some "bob@example.com") None None "client" true None.

Definition carol : User :=
  mkUser "user_3" (Some "carol@example.com") (Some "+998901234567")
    (Some "bcrypt:Passw0rd!") "client" true None.

Definition demo_store : UserStore :=
  mkUserStore
    {[ "user_1" := alice; "user_2" := bob; "user_3" := carol ]}
    {[ "alice@example.com" := "user_1"; "bob@example.com" := "user_2";
       "carol@example.com" := "user_3" ]}
    {[ "+998901234567" := "user_3" ]}.

Definition default_env : Env := mkEnv None None None.

(** C3, as stated, fails: an unknown email and a password-less account get
    different messages. *)
Lemma loginWithPassword_messages_counterexample :
  lr_message (loginWithPassword bcrypt_stub default_env login_time demo_store
                "nobody@example.com" "guess").1 = "Invalid email or password" /\
  lr_message (loginWithPassword bcrypt_stub default_env login_time demo_store
                "bob@example.com" "guess").1
  = "Please use OTP login for this account".
Proof. vm_compute. split; reflexivity. Qed.

(** C3 (amended): an unknown email and a wrong password on an active
    account with a password hash fail with the same message
    "Invalid email or password"; an account without a password hash fails
    with "Please use OTP login for this account". *)
Theorem loginWithPassword_failure_messages
    (comparePassword : string -> string -> bool) (env : Env) (now : Z)
    (st : UserStore) (email password : string) :
  let r := (loginWithPassword comparePassword env now st email password).1 in
  (getUserByEmail st email = None ->
   r = login_fail "Invalid email or password") /\
  (forall user, getUserByEmail st email = Some user ->
   js_truthy_str (u_passwordHash user) = None ->
   r = login_fail "Please use OTP login for this account") /\
  (forall user hash, getUserByEmail st email = Some user ->
   js_truthy_str (u_passwordHash user) = Some hash ->
   u_isActive user = true -> comparePassword password hash = false ->
   r = login_fail "Invalid email or password").
Proof.
  cbv zeta. unfold loginWithPassword.
  split; [|split].
  - intros ->. reflexivity.
  - intros user -> ->. reflexivity.
  - intros user hash -> -> -> ->. reflexivity.
Qed.

Lemma loginWithPassword_failure_messages_witness :
  lr_message (loginWithPassword bcrypt_stub default_env login_time demo_store
                "nobody@example.com" "guess").1 = "Invalid email or password" /\
  lr_message (loginWithPassword bcrypt_stub default_env login_time demo_store
                "bob@example.com" "guess").1
    = "Please use OTP login for this account" /\
  lr_message (loginWithPassword bcrypt_stub default_env login_time demo_store
                "carol@example.com" "wrong").1 = "Invalid email or password".
Proof.
  destruct (loginWithPassword_failure_messages bcrypt_stub default_env
              login_time demo_store "nobody@example.com" "guess") as [H1 _].
  destruct (loginWithPassword_failure_messages bcrypt_stub default_env
              login_time demo_store "bob@example.com" "guess") as [_ [H2 _]].
  destruct (loginWithPassword_failure_messages bcrypt_stub default_env
              login_time demo_store "carol@example.com" "wrong") as [_ [_ H3]].
  split; [|split].
  - rewrite H1 by reflexivity. reflexivity.
  - rewrite (H2 bob) by reflexivity. reflexivity.
  - rewrite (H3 carol "bcrypt:Passw0rd!") by reflexivity. reflexivity.
Defined.

(** C9, as stated, fails: Carol's phone number is found by the '@'
    heuristic of [getUserByEmailOrPhone], yet password login with it
    fails, while the same password with her email succeeds. *)
Lemma loginWithPassword_phone_counterexample :
  getUserByEmailOrPhone demo_store "+998901234567" = Some carol /\
  (loginWithPassword bcrypt_stub default_env login_time demo_store
     "+998901234567" "Passw0rd!").1 = login_fail "Invalid email or password" /\
  lr_success (loginWithPassword bcrypt_stub default_env login_time demo_store
                "carol@example.com" "Passw0rd!").1 = true.
Proof. vm_compute. repeat split. Qed.

(** C9 (amended): [loginWithPassword] reads its identifier as an email
    only.  The phone index is never read: with any other phone index the
    call gives the same result and leaves the same users and email index
    (the login may write the phone index, re-pointing the user's own
    phone, but never reads it).  An identifier that is no key of
    [usersByEmail] (a phone number, say) fails with
    "Invalid email or password" and leaves the store unchanged. *)
Theorem loginWithPassword_email_only
    (comparePassword : string -> string -> bool) (env : Env) (now : Z)
    (st : UserStore) (identifier password : string) :
  (forall byPhone : gmap string string,
     let '(r1, st1) :=
       loginWithPassword comparePassword env now
         (mkUserStore (users st) (usersByEmail st) byPhone) identifier password in
     let '(r, st') := loginWithPassword comparePassword env now st
                        identifier password in
     r1 = r /\ users st1 = users st' /\ usersByEmail st1 = usersByEmail st') /\
  (usersByEmail st !! identifier = None ->
   loginWithPassword comparePassword env now st identifier password
   = (login_fail "Invalid email or password", st)).
Proof.
  split.
  - intros byPhone. destruct st as [us be bp].
    unfold loginWithPassword, getUserByEmail; simpl.
    destruct (be !! identifier ≫= _) as [user|]; [|repeat split].
    destruct (js_truthy_str _); [|repeat split].
    destruct (u_isActive user); [|repeat split].
    destruct (comparePassword _ _); [|repeat split].
    unfold updateUserLastLogin; simpl.
    destruct (us !! u_id user); [|repeat split].
    unfold store_user; simpl. repeat split.
  - intros H. unfold loginWithPassword, getUserByEmail. rewrite H. reflexivity.
Qed.

Lemma loginWithPassword_email_only_witness :
  loginWithPassword bcrypt_stub default_env login_time demo_store
    "+998901234567" "Passw0rd!"
  = (login_fail "Invalid email or password", demo_store).
Proof.
  apply (loginWithPassword_email_only bcrypt_stub default_env login_time
           demo_store "+998901234567" "Passw0rd!").
  vm_compute. reflexivity.
Defined.

(** ** Password-reset request *)

(** C8: [POST /password/reset/request] for Alice's registered email and for
    an unknown email both answer 200 with [success: true], but the
    messages differ and only the registered email gets a [sessionId]; the
    unknown email opens no session. *)
Theorem password_reset_request_envelopes_differ :
  let '(known, ss_known) :=
    password_reset_request_route demo_store ∅ "alice@example.com"
      "0b6f3f2e-reset" "482913" login_time in
  let '(unknown, ss_unknown) :=
    password_reset_request_route demo_store ∅ "nobody@example.com"
      "0b6f3f2e-reset" "482913" login_time in
  known = mkEnvelope 200 true "Password reset code sent to your email"
            (Some "0b6f3f2e-reset") /\
  unknown = mkEnvelope 200 true
              "If the email exists, you will receive a reset code" None /\
  env_message known <> env_message unknown /\
  env_sessionId known <> env_sessionId unknown /\
  ss_unknown = ∅.
Proof. vm_compute. repeat split; discriminate. Qed.

(** ** One-Time-Code verification *)

Lemma verifyOTP_mismatch (ss : Sessions) (sid code : string) (s : OTPSession)
    (now : Z) :
  ss !! sid = Some s -> now <= s_expiresAt s -> s_verified s = false ->
  s_attempts s < maxOtpAttempts -> s_code s <> code ->
  verifyOTP ss sid code now
  = (verify_fail "Invalid OTP code",
     <[sid := with_attempts s (s_attempts s + 1)]> ss).
Proof.
  intros Hs Hexp Hver Hatt Hcode. unfold verifyOTP. rewrite Hs.
  rewrite (proj2 (Z.ltb_ge _ _) Hexp), Hver.
  rewrite (proj2 (Z.leb_gt _ _) Hatt). simpl.
  destruct (String.eqb_spec (s_code s) code); [contradiction|reflexivity].
Qed.

Lemma verifyOTP_attempts_exceeded (ss : Sessions) (sid code : string)
    (s : OTPSession) (now : Z) :
  ss !! sid = Some s -> now <= s_expiresAt s -> s_verified s = false ->
  maxOtpAttempts <= s_attempts s ->
  verifyOTP ss sid code now
  = (verify_fail "Too many failed attempts", delete sid ss).
Proof.
  intros Hs Hexp Hver Hatt. unfold verifyOTP. rewrite Hs.
  rewrite (proj2 (Z.ltb_ge _ _) Hexp), Hver.
  rewrite (proj2 (Z.leb_le _ _) Hatt). reflexivity.
Qed.

(** A fresh session for Alice, as [sendEmailOTP] stores it. *)
Definition alice_sessions : Sessions :=
  (sendEmailOTP ∅ "alice@example.com" "3f1c9a7e-otp" "482913" login_time).2.

(** C4, as stated, fails: after three wrong codes, a fourth call with the
    right code that comes after [expiresAt] is answered "OTP has expired",
    not "Too many failed attempts". *)
Lemma verifyOTP_fourth_call_counterexample :
  let '(r1, ss1) := verifyOTP alice_sessions "3f1c9a7e-otp" "000001" (login_time + 1000) in
  let '(r2, ss2) := verifyOTP ss1 "3f1c9a7e-otp" "000002" (login_time + 2000) in
  let '(r3, ss3) := verifyOTP ss2 "3f1c9a7e-otp" "000003" (login_time + 3000) in
  let '(r4, ss4) := verifyOTP ss3 "3f1c9a7e-otp" "482913" (login_time + 400000) in
  vr_message r3 = "Invalid OTP code" /\
  r4 = verify_fail "OTP has expired" /\ ss4 = ∅.
Proof. vm_compute. repeat split. Qed.

Lemma verifyOTP_expired (ss : Sessions) (sid code : string) (s : OTPSession)
    (now : Z) :
  ss !! sid = Some s -> s_expiresAt s < now ->
  verifyOTP ss sid code now = (verify_fail "OTP has expired", delete sid ss).
Proof.
  intros Hs Hexp. unfold verifyOTP. rewrite Hs.
  rewrite (proj2 (Z.ltb_lt _ _) Hexp). reflexivity.
Qed.

(** C4 (amended): on a session stored with no attempts and not verified,
    three calls with wrong codes made no later than [expiresAt] are each
    answered "Invalid OTP code"; a fourth call, whatever code it carries,
    is answered "Too many failed attempts" when made no later than
    [expiresAt] and "OTP has expired" when made after it, and in both
    cases deletes the session. *)
Theorem verifyOTP_fourth_call_exceeded (ss : Sessions) (sid : string)
    (s : OTPSession) (c1 c2 c3 c4 : string) (t1 t2 t3 t4 : Z)
    (Hs : ss !! sid = Some s) (Hfresh : s_attempts s = 0)
    (Hunverified : s_verified s = false)
    (H1 : s_code s <> c1) (H2 : s_code s <> c2) (H3 : s_code s <> c3)
    (Ht1 : t1 <= s_expiresAt s) (Ht2 : t2 <= s_expiresAt s)
    (Ht3 : t3 <= s_expiresAt s) :
  let '(r1, ss1) := verifyOTP ss sid c1 t1 in
  let '(r2, ss2) := verifyOTP ss1 sid c2 t2 in
  let '(r3, ss3) := verifyOTP ss2 sid c3 t3 in
  let '(r4, ss4) := verifyOTP ss3 sid c4 t4 in
  r1 = verify_fail "Invalid OTP code" /\ r2 = verify_fail "Invalid OTP code" /\
  r3 = verify_fail "Invalid OTP code" /\
  (t4 <= s_expiresAt s -> r4 = verify_fail "Too many failed attempts") /\
  (s_expiresAt s < t4 -> r4 = verify_fail "OTP has expired") /\
  ss4 !! sid = None.
Proof.
  unfold maxOtpAttempts in *.
  rewrite (verifyOTP_mismatch ss sid c1 s t1) by (rewrite ?Hfresh; unfold maxOtpAttempts; auto; lia).
  rewrite (verifyOTP_mismatch _ sid c2 (with_attempts s (s_attempts s + 1)) t2)
    by (simpl; rewrite ?Hfresh, ?lookup_insert_eq; unfold maxOtpAttempts; auto; lia).
  rewrite (verifyOTP_mismatch _ sid c3
             (with_attempts (with_attempts s (s_attempts s + 1))
                (s_attempts s + 1 + 1)) t3)
    by (simpl; rewrite ?Hfresh, ?lookup_insert_eq; unfold maxOtpAttempts; auto; lia).
  set (s3 := with_attempts (with_attempts (with_attempts s (s_attempts s + 1))
                (s_attempts s + 1 + 1)) (s_attempts s + 1 + 1 + 1)).
  destruct (Z.le_gt_cases t4 (s_expiresAt s)) as [Ht4|Ht4].
  - rewrite (verifyOTP_attempts_exceeded _ sid c4 s3 t4)
      by (unfold s3; simpl; rewrite ?Hfresh, ?lookup_insert_eq;
          unfold maxOtpAttempts; auto; lia).
    rewrite lookup_delete_eq. repeat split; intros; first [reflexivity|lia].
  - rewrite (verifyOTP_expired _ sid c4 s3 t4)
      by (unfold s3; simpl; rewrite ?lookup_insert_eq; auto; lia).
    rewrite lookup_delete_eq. repeat split; intros; first [reflexivity|lia].
Qed.

Lemma verifyOTP_fourth_call_exceeded_witness :
  let '(r1, ss1) := verifyOTP alice_sessions "3f1c9a7e-otp" "000001" (login_time + 1000) in
  let '(r2, ss2) := verifyOTP ss1 "3f1c9a7e-otp" "000002" (login_time + 2000) in
  let '(r3, ss3) := verifyOTP ss2 "3f1c9a7e-otp" "000003" (login_time + 3000) in
  let '(r4, ss4) := verifyOTP ss3 "3f1c9a7e-otp" "482913" (login_time + 4000) in
  r1 = verify_fail "Invalid OTP code" /\ r2 = verify_fail "Invalid OTP code" /\
  r3 = verify_fail "Invalid OTP code" /\
  (login_time + 4000 <= login_time + otpExpiry ->
   r4 = verify_fail "Too many failed attempts") /\
  (login_time + otpExpiry < login_time + 4000 -> r4 = verify_fail "OTP has expired") /\
  ss4 !! "3f1c9a7e-otp" = None.
Proof.
  apply (verifyOTP_fourth_call_exceeded alice_sessions "3f1c9a7e-otp"
           (mkOTPSession (Some "alice@example.com") None "482913" 0 login_time
              (login_time + otpExpiry) false));
    try reflexivity; try discriminate; vm_compute; discriminate.
Defined.

(** C5, as stated, fails: after a successful verify, a second call with
    the same code that comes after [expiresAt] finds the session still
    stored and is answered "OTP has expired", neither "OTP already used"
    nor session-not-found. *)
Lemma verifyOTP_replay_counterexample :
  let '(r1, ss1) := verifyOTP alice_sessions "3f1c9a7e-otp" "482913" (login_time + 1000) in
  let '(r2, _) := verifyOTP ss1 "3f1c9a7e-otp" "482913" (login_time + 400000) in
  vr_success r1 = true /\ is_Some (ss1 !! "3f1c9a7e-otp") /\
  r2 = verify_fail "OTP has expired".
Proof. vm_compute. repeat split. eexists. reflexivity. Qed.

(** A session id is consumed or verified: it was issued, and any session
    still stored under it has [verified = true]. *)
Definition consumed_or_verified (sid : string) (W : World) : Prop :=
  sid ∈ w_issued W /\
  forall s, w_sessions W !! sid = Some s -> s_verified s = true.

Lemma verifyOTP_lookup_other (ss : Sessions) (sid' sid code : string) (now : Z) :
  sid' <> sid -> (verifyOTP ss sid' code now).2 !! sid = ss !! sid.
Proof.
  intros Hne. unfold verifyOTP.
  repeat case_match; simpl;
    rewrite ?lookup_insert_ne, ?lookup_delete_ne by exact Hne; reflexivity.
Qed.

Lemma verifyOTP_on_verified (ss : Sessions) (sid code : string) (now : Z)
    (s : OTPSession) :
  ss !! sid = Some s -> s_verified s = true ->
  verifyOTP ss sid code now =
  if Z.ltb (s_expiresAt s) now
  then (verify_fail "OTP has expired", delete sid ss)
  else (verify_fail "OTP already used", ss).
Proof.
  intros Hs Hv. unfold verifyOTP. rewrite Hs, Hv.
  destruct (Z.ltb _ _); reflexivity.
Qed.

Lemma verifyOTP_success_verified (ss : Sessions) (sid code : string) (now : Z) :
  vr_success (verifyOTP ss sid code now).1 = true ->
  is_Some (ss !! sid) /\
  forall s, (verifyOTP ss sid code now).2 !! sid = Some s -> s_verified s = true.
Proof.
  unfold verifyOTP. destruct (ss !! sid) as [s|] eqn:Hs; [|discriminate].
  repeat case_match; simpl; try discriminate.
  intros _. split; [eexists; reflexivity|].
  intros s'. rewrite lookup_insert_eq. intros [= <-]. reflexivity.
Qed.

Lemma loginWithOTP_sessions (env : Env) (now : Z) (st : UserStore)
    (ss : Sessions) (sid : string) r st' ss' :
  loginWithOTP env now st ss sid = (r, st', ss') -> ss' = ss \/ ss' = delete sid ss.
Proof. unfold loginWithOTP. intros H. repeat case_match; simplify_eq; auto. Qed.

Lemma completeRegistration_sessions (st : UserStore) (ss : Sessions)
    (sid : string) data hash newId r st' ss' :
  completeRegistration st ss sid data hash newId = (r, st', ss') ->
  ss' = ss \/ ss' = delete sid ss.
Proof. unfold completeRegistration. intros H. repeat case_match; simplify_eq; auto. Qed.

Lemma resetPassword_sessions (st : UserStore) (ss : Sessions)
    (sid email hash : string) r st' ss' :
  resetPassword st ss sid email hash = (r, st', ss') ->
  ss' = ss \/ ss' = delete sid ss.
Proof. unfold resetPassword. intros H. repeat case_match; simplify_eq; auto. Qed.

Lemma sendPasswordResetOTP_sessions (st : UserStore) (ss : Sessions)
    (email sid code : string) (now : Z) :
  (sendPasswordResetOTP st ss email sid code now).2 = ss \/
  (sendPasswordResetOTP st ss email sid code now).2
  = (sendEmailOTP ss email sid code now).2.
Proof. unfold sendPasswordResetOTP. case_match; simpl; auto. Qed.

Lemma registerWithEmail_sessions (st : UserStore) (ss : Sessions)
    (email sid code : string) (now : Z) :
  (registerWithEmail st ss email sid code now).2 = ss \/
  (registerWithEmail st ss email sid code now).2
  = (sendEmailOTP ss email sid code now).2.
Proof. unfold registerWithEmail. case_match; simpl; auto. Qed.

(** Removing a key, or keeping the map, keeps the property. *)
Lemma consumed_or_verified_shrink (sid k : string) (st st' : UserStore)
    (ss ss' : Sessions) (I : gset string) :
  consumed_or_verified sid (mkWorld st ss I) ->
  ss' = ss \/ ss' = delete k ss ->
  consumed_or_verified sid (mkWorld st' ss' I).
Proof.
  intros [Hi Hv] [->| ->]; split; simpl in *; auto.
  intros s. destruct (decide (k = sid)) as [->|Hne].
  - rewrite lookup_delete_eq. discriminate.
  - rewrite lookup_delete_ne by exact Hne. apply Hv.
Qed.

(** A fresh id is never [sid]: inserting under it keeps the property. *)
Lemma consumed_or_verified_fresh (sid k : string) (st : UserStore)
    (ss : Sessions) (I : gset string) (s : OTPSession) :
  consumed_or_verified sid (mkWorld st ss I) -> k ∉ I ->
  consumed_or_verified sid (mkWorld st (<[k := s]> ss) ({[k]} ∪ I)).
Proof.
  intros [Hi Hv] Hk. split; simpl in *; [set_solver|].
  assert (Hne : k <> sid) by (intros ->; contradiction).
  intros s'. rewrite lookup_insert_ne by exact Hne. apply Hv.
Qed.

Lemma otp_step_consumed_or_verified (sid : string) (W W' : World) :
  otp_step W W' -> consumed_or_verified sid W -> consumed_or_verified sid W'.
Proof.
  intros Hstep HW. destruct W as [st ss I].
  inversion Hstep as
    [ W0 sid' code now | W0 env now sid' r st' ss' Heq
    | W0 sid' data hash newId r st' ss' Heq | W0 sid' email hash r st' ss' Heq
    | W0 now | W0 email sid' code now Hfresh | W0 phone sid' code now Hfresh
    | W0 email sid' code now Hfresh | W0 email sid' code now Hfresh ];
    subst; simpl in *.
  - destruct (decide (sid' = sid)) as [->|Hne].
    + destruct HW as [Hi Hv]. destruct (ss !! sid) as [s|] eqn:Hs.
      * rewrite (verifyOTP_on_verified ss sid code now s Hs (Hv s Hs)).
        destruct (Z.ltb _ _); simpl.
        -- eapply consumed_or_verified_shrink; [split; eauto|right; reflexivity].
        -- split; auto.
      * unfold verifyOTP. rewrite Hs. split; auto.
    + destruct HW as [Hi Hv]. split; simpl; auto.
      intros s. rewrite verifyOTP_lookup_other by exact Hne. apply Hv.
  - eapply consumed_or_verified_shrink; [exact HW|].
    eapply loginWithOTP_sessions; exact Heq.
  - eapply consumed_or_verified_shrink; [exact HW|].
    eapply completeRegistration_sessions; exact Heq.
  - eapply consumed_or_verified_shrink; [exact HW|].
    eapply resetPassword_sessions; exact Heq.
  - destruct HW as [Hi Hv]. split; simpl; auto.
    intros s Hs. apply map_lookup_filter_Some in Hs as [Hs _]. apply Hv, Hs.
  - apply consumed_or_verified_fresh; assumption.
  - apply consumed_or_verified_fresh; assumption.
  - destruct (sendPasswordResetOTP_sessions st ss email sid' code now) as [->| ->].
    + destruct HW as [Hi Hv]. split; simpl; [set_solver|exact Hv].
    + apply consumed_or_verified_fresh; assumption.
  - destruct (registerWithEmail_sessions st ss email sid' code now) as [->| ->].
    + destruct HW as [Hi Hv]. split; simpl; [set_solver|exact Hv].
    + apply consumed_or_verified_fresh; assumption.
Qed.

(** C5 (amended): once [verifyOTP] has succeeded on a session, no later
    call of [verifyOTP] on that session id succeeds, whatever operations
    of the service run in between and whatever code is supplied: it is
    answered "OTP already used" while the session is stored and not
    expired, "OTP has expired" when it is stored but expired, and
    "Invalid or expired OTP session" once it has been removed. *)
Theorem verifyOTP_no_second_success (W : World) (sid code : string) (now : Z)
    (Hwf : world_wf W)
    (Hok : vr_success (verifyOTP (w_sessions W) sid code now).1 = true)
    (W' : World)
    (Hsteps : rtc otp_step
                (mkWorld (w_users W) (verifyOTP (w_sessions W) sid code now).2
                   (w_issued W)) W')
    (code' : string) (now' : Z) :
  (verifyOTP (w_sessions W') sid code' now').1 =
  verify_fail (match w_sessions W' !! sid with
               | None => "Invalid or expired OTP session"
               | Some s => if Z.ltb (s_expiresAt s) now'
                           then "OTP has expired" else "OTP already used"
               end).
Proof.
  destruct (verifyOTP_success_verified _ _ _ _ Hok) as [Hsome Hver].
  assert (H0 : consumed_or_verified sid
                 (mkWorld (w_users W) (verifyOTP (w_sessions W) sid code now).2
                    (w_issued W))).
  { split; [|exact Hver]. simpl. apply Hwf, elem_of_dom. exact Hsome. }
  assert (HW' : consumed_or_verified sid W').
  { clear Hok Hver Hsome Hwf.
    induction Hsteps as [W0|W0 W1 W2 Hstep _ IH]; [exact H0|].
    apply IH. eapply otp_step_consumed_or_verified; eassumption. }
  destruct HW' as [_ Hv].
  destruct (w_sessions W' !! sid) as [s|] eqn:Hs.
  - rewrite (verifyOTP_on_verified _ sid code' now' s Hs (Hv s eq_refl)).
    destruct (Z.ltb _ _); reflexivity.
  - unfold verifyOTP. rewrite Hs. reflexivity.
Qed.

(** Alice verifies her code, then tries the same code again a second
    later: "OTP already used". *)
Lemma verifyOTP_no_second_success_witness :
  (verifyOTP (verifyOTP alice_sessions "3f1c9a7e-otp" "482913"
                (login_time + 1000)).2
     "3f1c9a7e-otp" "482913" (login_time + 2000)).1
  = verify_fail "OTP already used".
Proof.
  assert (Hwf : world_wf (mkWorld demo_store alice_sessions {[ "3f1c9a7e-otp" ]})).
  { unfold world_wf, alice_sessions, sendEmailOTP. simpl.
    rewrite insert_empty, dom_singleton_L. reflexivity. }
  assert (Hok : vr_success (verifyOTP alice_sessions "3f1c9a7e-otp" "482913"
                              (login_time + 1000)).1 = true).
  { vm_compute. reflexivity. }
  refine (eq_trans (verifyOTP_no_second_success
                      (mkWorld demo_store alice_sessions {[ "3f1c9a7e-otp" ]})
                      "3f1c9a7e-otp" "482913" (login_time + 1000) Hwf Hok _
                      (rtc_refl _ _) "482913" (login_time + 2000)) _).
  vm_compute. reflexivity.
Defined.

(** ** Rate Limiter *)

Lemma failed_auth_request_clean (key : string) (now : Z)
    (m : gmap string Attempt) :
  m !! key = None ->
  failed_auth_request key now m = (RateNext, <[key := mkAttempt 1 now]> m).
Proof.
  intros H. unfold failed_auth_request, authRateLimit, trackAuthFailure.
  rewrite H, H. reflexivity.
Qed.

Lemma failed_auth_request_accumulate (key : string) (now : Z)
    (m : gmap string Attempt) (a : Attempt) :
  m !! key = Some a -> now - lastAttempt a <= RATE_LIMIT_WINDOW ->
  count a < MAX_FAILED_ATTEMPTS ->
  failed_auth_request key now m
  = (RateNext, <[key := mkAttempt (count a + 1) now]> m).
Proof.
  intros Ha Hw Hc. unfold failed_auth_request, authRateLimit, trackAuthFailure.
  rewrite Ha. rewrite (proj2 (Z.ltb_ge _ _) Hw), (proj2 (Z.leb_gt _ _) Hc).
  rewrite Ha. reflexivity.
Qed.

(** C7: (1) from a clean key, five failed authentication requests whose
    times lie within one 15-minute window are all let through and
    recorded, and a sixth attempt inside that window is refused with
    HTTP 429; (2) whenever more than 15 minutes have passed since the last
    recorded attempt, [authRateLimit] deletes the counter and lets the
    request through, leaving the key clean. *)
Theorem rate_limit_blocks_sixth_then_resets :
  (forall (key : string) (m : gmap string Attempt) (t1 t2 t3 t4 t5 t6 : Z),
     m !! key = None ->
     t1 <= t2 -> t2 <= t3 -> t3 <= t4 -> t4 <= t5 -> t5 <= t6 ->
     t6 - t1 <= RATE_LIMIT_WINDOW ->
     let '(r1, m1) := failed_auth_request key t1 m in
     let '(r2, m2) := failed_auth_request key t2 m1 in
     let '(r3, m3) := failed_auth_request key t3 m2 in
     let '(r4, m4) := failed_auth_request key t4 m3 in
     let '(r5, m5) := failed_auth_request key t5 m4 in
     r1 = RateNext /\ r2 = RateNext /\ r3 = RateNext /\ r4 = RateNext /\
     r5 = RateNext /\ m5 !! key = Some (mkAttempt 5 t5) /\
     authRateLimit key t6 m5
     = (Rate429 (ceil_minutes (RATE_LIMIT_WINDOW - (t6 - t5))), m5)) /\
  (forall (key : string) (m : gmap string Attempt) (a : Attempt) (now : Z),
     m !! key = Some a -> RATE_LIMIT_WINDOW < now - lastAttempt a ->
     authRateLimit key now m = (RateNext, delete key m) /\
     delete key m !! key = None).
Proof.
  split.
  - intros key m t1 t2 t3 t4 t5 t6 H0 H12 H23 H34 H45 H56 Hwin.
    unfold RATE_LIMIT_WINDOW, MAX_FAILED_ATTEMPTS in *.
    rewrite (failed_auth_request_clean key t1 m H0).
    rewrite (failed_auth_request_accumulate key t2 _ (mkAttempt 1 t1))
      by (rewrite ?lookup_insert_eq; unfold RATE_LIMIT_WINDOW, MAX_FAILED_ATTEMPTS;
          simpl; auto; lia).
    rewrite (failed_auth_request_accumulate key t3 _ (mkAttempt (1 + 1) t2))
      by (rewrite ?lookup_insert_eq; unfold RATE_LIMIT_WINDOW, MAX_FAILED_ATTEMPTS;
          simpl; auto; lia).
    rewrite (failed_auth_request_accumulate key t4 _ (mkAttempt (1 + 1 + 1) t3))
      by (rewrite ?lookup_insert_eq; unfold RATE_LIMIT_WINDOW, MAX_FAILED_ATTEMPTS;
          simpl; auto; lia).
    rewrite (failed_auth_request_accumulate key t5 _ (mkAttempt (1 + 1 + 1 + 1) t4))
      by (rewrite ?lookup_insert_eq; unfold RATE_LIMIT_WINDOW, MAX_FAILED_ATTEMPTS;
          simpl; auto; lia).
    rewrite lookup_insert_eq.
    repeat split.
    unfold authRateLimit. rewrite lookup_insert_eq. simpl.
    unfold RATE_LIMIT_WINDOW, MAX_FAILED_ATTEMPTS.
    rewrite (proj2 (Z.ltb_ge _ _)) by lia. reflexivity.
  - intros key m a now Ha Hw. unfold authRateLimit. rewrite Ha.
    rewrite (proj2 (Z.ltb_lt _ _) Hw). split; [reflexivity|].
    apply lookup_delete_eq.
Qed.

(** Five failures at one-minute intervals from 10.0.0.7 block the sixth
    attempt a minute later ("Try again in 14 minutes"); twenty minutes
    after a fifth failure the key is clean again. *)
Lemma rate_limit_blocks_sixth_then_resets_witness :
  (let '(r1, m1) := failed_auth_request "10.0.0.7" login_time ∅ in
   let '(r2, m2) := failed_auth_request "10.0.0.7" (login_time + 60000) m1 in
   let '(r3, m3) := failed_auth_request "10.0.0.7" (login_time + 120000) m2 in
   let '(r4, m4) := failed_auth_request "10.0.0.7" (login_time + 180000) m3 in
   let '(r5, m5) := failed_auth_request "10.0.0.7" (login_time + 240000) m4 in
   r1 = RateNext /\ r2 = RateNext /\ r3 = RateNext /\ r4 = RateNext /\
   r5 = RateNext /\ m5 !! "10.0.0.7" = Some (mkAttempt 5 (login_time + 240000)) /\
   authRateLimit "10.0.0.7" (login_time + 300000) m5
   = (Rate429 (ceil_minutes (RATE_LIMIT_WINDOW - (login_time + 300000
                                                  - (login_time + 240000)))), m5)) /\
  (authRateLimit "10.0.0.7" (login_time + 1500000)
     ({[ "10.0.0.7" := mkAttempt 5 login_time ]} : gmap string Attempt)
   = (RateNext, delete "10.0.0.7" ({[ "10.0.0.7" := mkAttempt 5 login_time ]} : gmap string Attempt)) /\
   delete "10.0.0.7" ({[ "10.0.0.7" := mkAttempt 5 login_time ]} : gmap string Attempt) !! "10.0.0.7"
   = None).
Proof.
  destruct rate_limit_blocks_sixth_then_resets as [H1 H2]. split.
  - apply H1; [reflexivity | unfold login_time, RATE_LIMIT_WINDOW; lia ..].
  - apply (H2 "10.0.0.7" _ (mkAttempt 5 login_time)).
    + vm_compute. reflexivity.
    + unfold RATE_LIMIT_WINDOW. simpl. lia.
Defined.

Example rate_limit_minutes_left :
  ceil_minutes (RATE_LIMIT_WINDOW - 60000) = 14.
Proof. reflexivity. Qed.

(* ================================================================== *)
(** * Further properties of the authentication core                     *)
(* ================================================================== *)

(** ** Token Service *)

Lemma jwt_verify_own (t : Token) (now : Z) :
  tk_iss t = Some issuer -> tk_aud t = Some audience ->
  jwt_verify t (tk_key t) (Some (issuer, audience)) now
  = if Z.leb (tk_exp t) (jwt_seconds now) then None else Some t.
Proof.
  intros Hi Ha. unfold jwt_verify. rewrite String.eqb_refl. simpl.
  destruct (Z.leb _ _); [reflexivity|].
  rewrite Hi, Ha. unfold opt_string_eqb. rewrite !String.eqb_refl. reflexivity.
Qed.

(** An access token minted at [minted] verifies as an access token at
    [now] exactly when it is not revoked and fewer than 15 minutes (900
    seconds, counted in whole seconds) have passed; a refresh token
    likewise with 7 days. *)
Theorem token_verify_roundtrip (bl : list Token) (env : Env)
    (minted now : Z) (user : User) :
  (verifyAccessToken bl env now (generateAccessToken env minted user)
   = Some (generateAccessToken env minted user) <->
   (generateAccessToken env minted user ∉ bl) /\
   jwt_seconds now < jwt_seconds minted + 15 * 60) /\
  (verifyRefreshToken bl env now (generateRefreshToken env minted user)
   = Some (generateRefreshToken env minted user) <->
   (generateRefreshToken env minted user ∉ bl) /\
   jwt_seconds now < jwt_seconds minted + 7 * 24 * 60 * 60).
Proof.
  split.
  - unfold verifyAccessToken, set_has.
    change (accessTokenSecret env)
      with (tk_key (generateAccessToken env minted user)).
    rewrite jwt_verify_own by reflexivity.
    destruct (bool_decide_reflect (generateAccessToken env minted user ∈ bl))
      as [Hin|Hin].
    + split; [discriminate|]. intros [H _]. contradiction.
    + simpl. destruct (Z.leb_spec (jwt_seconds minted + 15 * 60) (jwt_seconds now)).
      * split; [discriminate|]. lia.
      * split; [intros _; split; [exact Hin|lia]|reflexivity].
  - unfold verifyRefreshToken, set_has.
    change (refreshTokenSecret env)
      with (tk_key (generateRefreshToken env minted user)).
    rewrite jwt_verify_own by reflexivity.
    destruct (bool_decide_reflect (generateRefreshToken env minted user ∈ bl))
      as [Hin|Hin].
    + split; [discriminate|]. intros [H _]. contradiction.
    + simpl.
      destruct (Z.leb_spec (jwt_seconds minted + 7 * 24 * 60 * 60) (jwt_seconds now)).
      * split; [discriminate|]. lia.
      * split; [intros _; split; [exact Hin|lia]|reflexivity].
Qed.

(** [authenticate] only ever admits a token signed with the middleware's
    secret; so when that secret differs from the service's access secret
    (as with the built-in defaults), no access token the service mints is
    accepted, whether it comes as the [accessToken] cookie or, without that
    cookie, in the [Authorization: Bearer] header. *)
Theorem authenticate_rejects_service_tokens (mwbl : list Token) (env : Env)
    (minted now : Z) (st : UserStore) (user : User) (req : AuthRequest)
    (Hsecrets : middlewareSecret env <> accessTokenSecret env)
    (Htoken : cookie_accessToken req = Some (generateAccessToken env minted user) \/
              (cookie_accessToken req = None /\
               bearer_token req = Some (generateAccessToken env minted user))) :
  exists message, authenticate mwbl env now st req = Authn401 message.
Proof.
  unfold authenticate.
  assert (Hchosen : match cookie_accessToken req with
                    | Some t => Some t
                    | None => bearer_token req
                    end = Some (generateAccessToken env minted user)).
  { destruct Htoken as [-> | [-> ->]]; reflexivity. }
  rewrite Hchosen.
  destruct (set_has _ _); [eexists; reflexivity|].
  unfold extractUserFromToken, jwt_verify. simpl.
  destruct (String.eqb_spec (accessTokenSecret env) (middlewareSecret env))
    as [E|_]; [congruence|].
  eexists; reflexivity.
Qed.

(** The Bearer-header path: no cookie, the service's access token in the
    [Authorization] header, default secrets. *)
Lemma authenticate_rejects_service_tokens_witness :
  exists message,
    authenticate [] default_env login_time alice_store
      (mkAuthRequest None None
         (Some (generateAccessToken default_env login_time alice)))
    = Authn401 message.
Proof.
  apply (authenticate_rejects_service_tokens [] default_env login_time
           login_time alice_store alice).
  - vm_compute. discriminate.
  - right. split; reflexivity.
Defined.

(** [optionalAuth] attaches exactly the user [authenticate] would accept,
    and attaches nobody where [authenticate] answers 401. *)
Theorem optionalAuth_agrees_with_authenticate (mwbl : list Token) (env : Env)
    (now : Z) (st : UserStore) (req : AuthRequest) :
  optionalAuth mwbl env now st req =
  match authenticate mwbl env now st req with
  | AuthnNext u => Some u
  | Authn401 _ => None
  end.
Proof.
  unfold optionalAuth, authenticate.
  destruct (match cookie_accessToken req with
            | Some t => Some t | None => bearer_token req end) as [t|];
    [|reflexivity].
  destruct (set_has t mwbl); [reflexivity|]. simpl.
  destruct (extractUserFromToken env now t) as [ui|]; [|reflexivity].
  destruct (getUserByEmail_opt st (au_email ui)) as [u|]; [|reflexivity].
  destruct (u_isActive u); reflexivity.
Qed.

(** A token minted as an access token never refreshes: [refreshAccessToken]
    answers "Invalid refresh token". *)
Theorem refresh_rejects_access_token (bl : list Token) (env : Env)
    (minted now : Z) (st : UserStore) (user : User) :
  refreshAccessToken bl env now st (generateAccessToken env minted user)
  = (false, "Invalid refresh token", None).
Proof.
  unfold refreshAccessToken, verifyRefreshToken.
  destruct (set_has _ _); [reflexivity|].
  destruct (jwt_verify _ _ _ _) as [d|] eqn:E; [|reflexivity].
  apply jwt_verify_Some in E. subst d. reflexivity.
Qed.

(** For an unrevoked, unexpired refresh token, [refreshAccessToken]
    re-reads the user from the store: it mints an access token from the
    stored record (its current role) when that user is active, and
    answers "User not found or inactive" when the user is gone or
    deactivated. *)
Theorem refresh_uses_stored_user (bl : list Token) (env : Env)
    (minted now : Z) (st : UserStore) (user : User)
    (Hnot_revoked : generateRefreshToken env minted user ∉ bl)
    (Hfresh : jwt_seconds now < jwt_seconds minted + 7 * 24 * 60 * 60) :
  refreshAccessToken bl env now st (generateRefreshToken env minted user) =
  match users st !! u_id user with
  | Some stored =>
      if u_isActive stored
      then (true, "Token refreshed successfully",
            Some (generateAccessToken env now stored))
      else (false, "User not found or inactive", None)
  | None => (false, "User not found or inactive", None)
  end.
Proof.
  unfold refreshAccessToken.
  rewrite (proj2 (proj2 (token_verify_roundtrip bl env minted now user))
             (conj Hnot_revoked Hfresh)).
  reflexivity.
Qed.

Lemma refresh_uses_stored_user_witness :
  refreshAccessToken [] default_env (login_time + 60000) alice_store
    (generateRefreshToken default_env login_time alice)
  = (true, "Token refreshed successfully",
     Some (generateAccessToken default_env (login_time + 60000) alice)).
Proof.
  rewrite (refresh_uses_stored_user [] default_env login_time
             (login_time + 60000) alice_store alice).
  - reflexivity.
  - apply not_elem_of_nil.
  - vm_compute. reflexivity.
Defined.

(** The middleware's [blacklistToken], on a set within its bound of
    10000, always keeps the token just added, stays within the bound, and
    only holds tokens that were there before or the new one. *)
Theorem mw_blacklistToken_bounded (t : Token) (s : list Token)
    (Hbound : Z.of_nat (List.length s) <= 10000) :
  let s' := mw_blacklistToken t s in
  t ∈ s' /\ Z.of_nat (List.length s') <= 10000 /\
  (forall x, x ∈ s' -> x ∈ s \/ x = t).
Proof.
  cbv zeta. unfold mw_blacklistToken, set_add.
  case_decide as Hin.
  - rewrite (proj2 (Z.ltb_ge _ _)) by lia. split; [exact Hin|]. split; [exact Hbound|].
    auto.
  - rewrite !length_app. simpl.
    destruct (Z.ltb_spec 10000 (Z.of_nat (List.length s + 1))) as [Hbig|Hsmall].
    + set (n := Z.to_nat (Z.of_nat (List.length s + 1) - 5000)).
      assert (Z.of_nat n = Z.of_nat (List.length s) + 1 - 5000) as Hn
        by (unfold n; rewrite Z2Nat.id; lia).
      rewrite drop_app_le by lia.
      split; [set_solver|]. split.
      * rewrite length_app, length_drop. simpl. lia.
      * intros x Hx. apply elem_of_app in Hx as [Hx|Hx].
        -- left. apply (subseteq_drop n s). exact Hx.
        -- right. set_solver.
    + split; [set_solver|]. split; [rewrite length_app; simpl; lia|].
      intros x Hx. apply elem_of_app in Hx as [Hx|Hx]; [left; exact Hx|].
      right. set_solver.
Qed.

(** A middleware set already at its bound: 10000 distinct revoked access
    tokens. *)
Definition full_blacklist : list Token :=
  map (fun i => mkToken "user_1" (Some "alice@example.com") "client" "access"
                  (Some issuer) (Some audience) (Z.of_nat i) (Z.of_nat i + 900)
                  "access-secret-key")
    (seq 0 (Z.to_nat 10000)).

(** Adding a 10001st token trims the set to its newest 5000 entries. *)
Lemma mw_blacklistToken_bounded_witness :
  let t := generateAccessToken default_env login_time alice in
  let s' := mw_blacklistToken t full_blacklist in
  (t ∈ s' /\ Z.of_nat (List.length s') <= 10000 /\
   (forall x, x ∈ s' -> x ∈ full_blacklist \/ x = t)) /\
  Z.of_nat (List.length s') = 5000.
Proof.
  cbv zeta.
  set (t := generateAccessToken default_env login_time alice).
  set (n := Z.to_nat 10000).
  assert (Hn : Z.of_nat n = 10000) by (unfold n; rewrite Z2Nat.id; lia).
  assert (Hlen : List.length full_blacklist = n).
  { unfold full_blacklist. rewrite length_map, length_seq. reflexivity. }
  assert (Hnot : t ∉ full_blacklist).
  { unfold full_blacklist. intros Hin.
    apply list_elem_of_In, in_map_iff in Hin as [i [Heq Hi]].
    apply in_seq in Hi.
    apply (f_equal tk_iat) in Heq. unfold t in Heq. simpl in Heq.
    unfold jwt_seconds, login_time in Heq. fold n in Hi.
    assert (Z.of_nat i < 10000) by lia.
    change (1700000000000 / 1000) with 1700000000 in Heq. lia. }
  split.
  - apply mw_blacklistToken_bounded. rewrite Hlen, Hn. lia.
  - unfold mw_blacklistToken, set_add. rewrite decide_False by exact Hnot.
    rewrite length_app, Hlen. cbn [List.length].
    rewrite Nat2Z.inj_add, Hn. change (Z.of_nat 1) with 1.
    rewrite (proj2 (Z.ltb_lt 10000 (10000 + 1))) by lia.
    rewrite length_drop, length_app, Hlen. cbn [List.length]. lia.
Defined.

(** ** One-Time-Code Issuer *)

(** [verifyOTP] succeeds exactly on a stored session that has not expired,
    is not yet verified, has had fewer than 3 attempts and whose code is
    the one supplied; it then returns the session's contact, and stores
    the session verified with one more attempt. *)
Theorem verifyOTP_success_iff (ss : Sessions) (sid code : string) (now : Z) :
  vr_success (verifyOTP ss sid code now).1 = true <->
  exists s, ss !! sid = Some s /\ now <= s_expiresAt s /\
            s_verified s = false /\ s_attempts s < maxOtpAttempts /\
            s_code s = code /\
            verifyOTP ss sid code now =
              (mkVerifyResult true "OTP verified successfully"
                 (s_email s) (s_phone s),
               <[sid := with_verified (with_attempts s (s_attempts s + 1))]> ss).
Proof.
  split.
  - unfold verifyOTP. destruct (ss !! sid) as [s|] eqn:Hs; [|discriminate].
    destruct (Z.ltb_spec (s_expiresAt s) now); [discriminate|].
    destruct (s_verified s) eqn:Hv; [discriminate|].
    destruct (Z.leb_spec maxOtpAttempts (s_attempts s)); [discriminate|].
    simpl. destruct (String.eqb_spec (s_code s) code) as [Hc|]; [|discriminate].
    intros _. exists s. repeat split; try assumption; lia.
  - intros (s & _ & _ & _ & _ & _ & ->). reflexivity.
Qed.

Lemma verifyOTP_success_iff_witness :
  vr_success (verifyOTP alice_sessions "3f1c9a7e-otp" "482913" login_time).1 = true.
Proof.
  apply (proj2 (verifyOTP_success_iff alice_sessions "3f1c9a7e-otp" "482913"
                  login_time)).
  eexists. split; [reflexivity|].
  vm_compute. repeat split; discriminate.
Defined.

(** Every stored session has had between 0 and 3 attempts. *)
Definition attempts_bounded (W : World) : Prop :=
  forall k s, w_sessions W !! k = Some s ->
  0 <= s_attempts s <= maxOtpAttempts.

Lemma attempts_bounded_shrink (k : string) (st st' : UserStore)
    (ss ss' : Sessions) (I I' : gset string) :
  attempts_bounded (mkWorld st ss I) -> ss' = ss \/ ss' = delete k ss ->
  attempts_bounded (mkWorld st' ss' I').
Proof.
  intros H [->| ->] k' s; simpl; [apply (H k')|].
  destruct (decide (k = k')) as [->|Hne].
  - rewrite lookup_delete_eq. discriminate.
  - rewrite lookup_delete_ne by exact Hne. apply (H k').
Qed.

Lemma attempts_bounded_fresh (k : string) (st : UserStore) (ss : Sessions)
    (I : gset string) (c : option string) (p : option string)
    (code : string) (now : Z) :
  attempts_bounded (mkWorld st ss I) ->
  attempts_bounded
    (mkWorld st (<[k := mkOTPSession c p code 0 now (now + otpExpiry) false]> ss)
       ({[k]} ∪ I)).
Proof.
  intros H k' s. simpl. destruct (decide (k = k')) as [->|Hne].
  - rewrite lookup_insert_eq. intros [= <-]. simpl. unfold maxOtpAttempts. lia.
  - rewrite lookup_insert_ne by exact Hne. apply (H k').
Qed.

Lemma otp_step_attempts_bounded (W W' : World) :
  otp_step W W' -> attempts_bounded W -> attempts_bounded W'.
Proof.
  intros Hstep HW. destruct W as [st ss I].
  inversion Hstep as
    [ W0 sid code now | W0 env now sid r st' ss' Heq
    | W0 sid data hash newId r st' ss' Heq | W0 sid email hash r st' ss' Heq
    | W0 now | W0 email sid code now Hfresh | W0 phone sid code now Hfresh
    | W0 email sid code now Hfresh | W0 email sid code now Hfresh ];
    subst; simpl in *.
  - unfold verifyOTP.
    destruct (ss !! sid) as [s0|] eqn:Hs; simpl; [|exact HW].
    destruct (Z.ltb _ _); simpl.
    { apply (attempts_bounded_shrink sid st st ss _ I I HW). right; reflexivity. }
    destruct (s_verified s0); simpl; [exact HW|].
    destruct (Z.leb_spec maxOtpAttempts (s_attempts s0)); simpl.
    { apply (attempts_bounded_shrink sid st st ss _ I I HW). right; reflexivity. }
    pose proof (HW sid s0 Hs) as Hb. intros k s. simpl.
    destruct (negb _); simpl;
      (destruct (decide (sid = k)) as [->|Hne];
       [rewrite lookup_insert_eq; intros [= <-]; simpl; lia
       |rewrite lookup_insert_ne by exact Hne; apply (HW k)]).
  - eapply attempts_bounded_shrink; [exact HW|].
    eapply loginWithOTP_sessions; exact Heq.
  - eapply attempts_bounded_shrink; [exact HW|].
    eapply completeRegistration_sessions; exact Heq.
  - eapply attempts_bounded_shrink; [exact HW|].
    eapply resetPassword_sessions; exact Heq.
  - intros k s Hs. apply map_lookup_filter_Some in Hs as [Hs _]. apply (HW k), Hs.
  - apply attempts_bounded_fresh; assumption.
  - apply attempts_bounded_fresh; assumption.
  - destruct (sendPasswordResetOTP_sessions st ss email sid code now) as [->| ->].
    + eapply (attempts_bounded_shrink sid); [exact HW|left; reflexivity].
    + apply attempts_bounded_fresh; assumption.
  - destruct (registerWithEmail_sessions st ss email sid code now) as [->| ->].
    + eapply (attempts_bounded_shrink sid); [exact HW|left; reflexivity].
    + apply attempts_bounded_fresh; assumption.
Qed.

(** Starting from an empty [otpSessions] map, after any sequence of
    operations of the service every stored session has had between 0 and
    [maxOtpAttempts] failed or successful attempts. *)
Theorem otp_attempts_never_exceed_max (st : UserStore) (I : gset string)
    (W : World) (Hrun : rtc otp_step (mkWorld st ∅ I) W) :
  forall sid s, w_sessions W !! sid = Some s ->
  0 <= s_attempts s <= maxOtpAttempts.
Proof.
  assert (H0 : attempts_bounded (mkWorld st ∅ I)).
  { intros k s. simpl. rewrite lookup_empty. discriminate. }
  revert H0. induction Hrun as [W0|W0 W1 W2 Hs _ IH]; intros H0.
  - exact H0.
  - apply IH. eapply otp_step_attempts_bounded; eassumption.
Qed.

Definition sms_otp_world : World :=
  let W1 := mkWorld alice_store
              (sendSMSOTP ∅ "+998901234567" "a81f-uuid" "390114" login_time).2
              ({["a81f-uuid"]} ∪ ∅) in
  mkWorld (w_users W1)
    (verifyOTP (w_sessions W1) "a81f-uuid" "000000" (login_time + 5000)).2
    (w_issued W1).

Lemma otp_attempts_never_exceed_max_witness :
  match w_sessions sms_otp_world !! "a81f-uuid" with
  | Some s => 0 <= s_attempts s <= maxOtpAttempts
  | None => True
  end.
Proof.
  destruct (w_sessions sms_otp_world !! "a81f-uuid") as [s|] eqn:Hs; [|exact I].
  refine (otp_attempts_never_exceed_max alice_store ∅ sms_otp_world _
            "a81f-uuid" s Hs).
  eapply rtc_l.
  { apply (step_sendSMSOTP (mkWorld alice_store ∅ ∅) "+998901234567" "a81f-uuid"
             "390114" login_time).
    apply not_elem_of_empty. }
  eapply rtc_l; [apply step_verifyOTP|]. apply rtc_refl.
Defined.

(** ** OTP flows of the Auth Orchestrator *)

Lemma js_truthy_str_nonempty (s : string) :
  s <> "" -> js_truthy_str (Some s) = Some s.
Proof.
  intros Hs. unfold js_truthy_str.
  destruct (String.eqb_spec s ""); [contradiction|reflexivity].
Qed.

(** The code sent by [sendEmailOTP], entered within its 5 minutes, turns
    the session into a verified one. *)
Lemma sendEmailOTP_then_verify (ss : Sessions) (email sid code : string)
    (sent verified : Z) :
  verified <= sent + otpExpiry ->
  (verifyOTP (sendEmailOTP ss email sid code sent).2 sid code verified).2 =
  <[sid := mkOTPSession (Some email) None code 1 sent (sent + otpExpiry) true]> ss.
Proof.
  intros Hlive. unfold verifyOTP, sendEmailOTP. simpl.
  rewrite lookup_insert_eq. simpl.
  rewrite (proj2 (Z.ltb_ge _ _)) by lia.
  unfold maxOtpAttempts. simpl. rewrite String.eqb_refl. simpl.
  rewrite insert_insert_eq. reflexivity.
Qed.

(** Email OTP login end to end: after [sendEmailOTP] and a correct
    [verifyOTP] within 5 minutes, [loginWithOTP] on that session succeeds
    exactly when [getUserByEmailOrPhone] finds an active user for the
    email, at any later time (it does not look at the expiry); on success
    the session is removed and the tokens are minted for that user. *)
Theorem email_otp_login_flow (env : Env) (st : UserStore) (ss : Sessions)
    (email sid code : string) (sent verified loginAt : Z)
    (Hemail : email <> "") (Hlive : verified <= sent + otpExpiry) :
  let ss1 := (sendEmailOTP ss email sid code sent).2 in
  let ss2 := (verifyOTP ss1 sid code verified).2 in
  let '(r, st', ss3) := loginWithOTP env loginAt st ss2 sid in
  (lr_success r = true <->
   exists u, getUserByEmailOrPhone st email = Some u /\ u_isActive u = true) /\
  (forall u, getUserByEmailOrPhone st email = Some u -> u_isActive u = true ->
   lr_accessToken r = Some (generateAccessToken env loginAt u) /\
   lr_refreshToken r = Some (generateRefreshToken env loginAt u) /\
   ss3 !! sid = None).
Proof.
  cbv zeta. rewrite sendEmailOTP_then_verify by exact Hlive.
  unfold loginWithOTP. rewrite lookup_insert_eq.
  cbn -[js_truthy_str getUserByEmailOrPhone generateAccessToken
        generateRefreshToken updateUserLastLogin].
  rewrite (js_truthy_str_nonempty email Hemail).
  destruct (getUserByEmailOrPhone st email) as [u|] eqn:Hu.
  - destruct (u_isActive u) eqn:Ha; simpl.
    + split.
      * split; [intros _; exists u; auto|reflexivity].
      * intros u' [= <-] _. split; [reflexivity|]. split; [reflexivity|].
        rewrite lookup_delete_eq. reflexivity.
    + split.
      * split; [discriminate|]. intros (u' & [= <-] & Ha'). congruence.
      * intros u' [= <-] Ha'. congruence.
  - simpl. split.
    + split; [discriminate|]. intros (u' & Hu' & _). discriminate.
    + intros u' Hu'. discriminate.
Qed.

Lemma email_otp_login_flow_witness :
  let ss1 := (sendEmailOTP ∅ "alice@example.com" "7c2d-uuid" "105937" login_time).2 in
  let ss2 := (verifyOTP ss1 "7c2d-uuid" "105937" (login_time + 60000)).2 in
  let '(r, st', ss3) :=
    loginWithOTP default_env (login_time + 120000) alice_store ss2 "7c2d-uuid" in
  (lr_success r = true <->
   exists u, getUserByEmailOrPhone alice_store "alice@example.com" = Some u /\
             u_isActive u = true) /\
  (forall u, getUserByEmailOrPhone alice_store "alice@example.com" = Some u ->
   u_isActive u = true ->
   lr_accessToken r = Some (generateAccessToken default_env (login_time + 120000) u) /\
   lr_refreshToken r = Some (generateRefreshToken default_env (login_time + 120000) u) /\
   ss3 !! "7c2d-uuid" = None).
Proof.
  apply email_otp_login_flow; [discriminate|unfold otpExpiry; lia].
Defined.

(** Registration end to end: for an email no user has, [registerWithEmail]
    opens a session; once its code is verified within 5 minutes,
    [completeRegistration] with that email succeeds, creates an active
    user under the new id that [getUserByEmail] then finds, and removes
    the session. *)
Theorem registration_flow (st : UserStore) (ss : Sessions)
    (email sid code : string) (sent verified : Z)
    (data : RegistrationData) (hash newId : string)
    (Hnew : getUserByEmail st email = None) (Hemail : email <> "")
    (Hdata : rd_email data = email) (Hlive : verified <= sent + otpExpiry) :
  let ss1 := (registerWithEmail st ss email sid code sent).2 in
  let ss2 := (verifyOTP ss1 sid code verified).2 in
  let '(r, st', ss3) := completeRegistration st ss2 sid data hash newId in
  exists u, r = (true, "Registration completed successfully", Some u) /\
            getUserByEmail st' email = Some u /\
            u_id u = newId /\ u_isActive u = true /\
            u_role u = default "client" (js_truthy_str (rd_role data)) /\
            ss3 !! sid = None.
Proof.
  cbv zeta. unfold registerWithEmail. rewrite Hnew.
  destruct (sendEmailOTP ss email sid code sent) as [[sid' e] ss1] eqn:Hsend.
  simpl.
  replace ss1 with (sendEmailOTP ss email sid code sent).2 by (rewrite Hsend; reflexivity).
  rewrite sendEmailOTP_then_verify by exact Hlive.
  unfold completeRegistration, upsertUser. rewrite lookup_insert_eq.
  rewrite Hdata, (js_truthy_str_nonempty email Hemail).
  cbn -[js_truthy_str]. rewrite String.eqb_refl.
  cbn -[js_truthy_str].
  eexists. split; [reflexivity|].
  unfold getUserByEmail. cbn -[js_truthy_str].
  rewrite !lookup_insert_eq. cbn -[js_truthy_str].
  repeat split; rewrite ?lookup_insert_eq, ?lookup_delete_eq; reflexivity.
Qed.

Lemma registration_flow_witness :
  let data := mkRegistrationData "dave@example.com" None None in
  let ss1 := (registerWithEmail alice_store ∅ "dave@example.com" "9e41-uuid"
                "660127" login_time).2 in
  let ss2 := (verifyOTP ss1 "9e41-uuid" "660127" (login_time + 30000)).2 in
  let '(r, st', ss3) := completeRegistration alice_store ss2 "9e41-uuid" data
                          "bcrypt:hunter2" "user_4" in
  exists u, r = (true, "Registration completed successfully", Some u) /\
            getUserByEmail st' "dave@example.com" = Some u /\
            u_id u = "user_4" /\ u_isActive u = true /\
            u_role u = default "client" (js_truthy_str (rd_role data)) /\
            ss3 !! "9e41-uuid" = None.
Proof.
  apply registration_flow;
    [reflexivity|discriminate|reflexivity|unfold otpExpiry; lia].
Defined.

(** The invariant of MemStorage: each user is stored under its own id. *)
Definition store_wf (st : UserStore) : Prop :=
  forall id u, users st !! id = Some u -> u_id u = id.

(** Storing a user under the id an email is indexed at keeps that email
    pointing at the stored user, whatever its own email and phone. *)
Lemma store_user_getUserByEmail (st : UserStore) (id email : string)
    (user : User) :
  usersByEmail st !! email = Some id ->
  getUserByEmail (store_user st id user) email = Some user.
Proof.
  intros Hid. unfold getUserByEmail, store_user. simpl.
  assert (Hidx : (match js_truthy_str (u_email user) with
                  | Some e => <[e := id]> (usersByEmail st)
                  | None => usersByEmail st
                  end) !! email = Some id).
  { destruct (js_truthy_str (u_email user)) as [e|]; [|exact Hid].
    destruct (decide (e = email)) as [->|Hne].
    - apply lookup_insert_eq.
    - rewrite lookup_insert_ne by exact Hne. exact Hid. }
  rewrite Hidx. simpl. apply lookup_insert_eq.
Qed.

(** Password reset end to end: for an email of a stored user,
    [sendPasswordResetOTP] opens a session; once its code is verified
    within 5 minutes, [resetPassword] succeeds, the user found by that
    email then carries the new hash, and the session is removed. *)
Theorem password_reset_flow (st : UserStore) (ss : Sessions)
    (email sid code : string) (sent verified : Z) (hash : string) (u : User)
    (Hwf : store_wf st) (Hu : getUserByEmail st email = Some u)
    (Hlive : verified <= sent + otpExpiry) :
  let ss1 := (sendPasswordResetOTP st ss email sid code sent).2 in
  let ss2 := (verifyOTP ss1 sid code verified).2 in
  let '(r, st', ss3) := resetPassword st ss2 sid email hash in
  r = (true, "Password reset successfully") /\
  (exists u', getUserByEmail st' email = Some u' /\ u_id u' = u_id u /\
              u_passwordHash u' = Some hash /\ u_role u' = u_role u) /\
  ss3 !! sid = None.
Proof.
  cbv zeta. unfold sendPasswordResetOTP. rewrite Hu.
  destruct (sendEmailOTP ss email sid code sent) as [[sid' e] ss1] eqn:Hsend.
  simpl.
  replace ss1 with (sendEmailOTP ss email sid code sent).2 by (rewrite Hsend; reflexivity).
  rewrite sendEmailOTP_then_verify by exact Hlive.
  unfold resetPassword. rewrite lookup_insert_eq. simpl.
  rewrite String.eqb_refl. simpl. rewrite Hu.
  split; [reflexivity|]. split; [|rewrite lookup_delete_eq; reflexivity].
  unfold getUserByEmail in Hu.
  destruct (usersByEmail st !! email) as [id|] eqn:Hid; simpl in Hu; [|discriminate].
  pose proof (Hwf id u Hu) as Hidu.
  unfold updateUserPassword. rewrite Hidu, Hu.
  rewrite (store_user_getUserByEmail st id email _ Hid).
  eexists. repeat split; assumption.
Qed.

Lemma password_reset_flow_witness :
  let ss1 := (sendPasswordResetOTP demo_store ∅ "carol@example.com" "51b0-uuid"
                "274816" login_time).2 in
  let ss2 := (verifyOTP ss1 "51b0-uuid" "274816" (login_time + 240000)).2 in
  let '(r, st', ss3) := resetPassword demo_store ss2 "51b0-uuid"
                          "carol@example.com" "bcrypt:N3wPass!" in
  r = (true, "Password reset successfully") /\
  (exists u', getUserByEmail st' "carol@example.com" = Some u' /\
              u_id u' = u_id carol /\
              u_passwordHash u' = Some "bcrypt:N3wPass!" /\ u_role u' = u_role carol) /\
  ss3 !! "51b0-uuid" = None.
Proof.
  apply password_reset_flow.
  - intros id v Hv. unfold demo_store in Hv. simpl in Hv.
    repeat (rewrite lookup_insert_Some in Hv;
            destruct Hv as [[<- <-]|[_ Hv]]; [reflexivity|]).
    rewrite lookup_singleton_Some in Hv. destruct Hv as [<- <-]. reflexivity.
  - reflexivity.
  - unfold otpExpiry. lia.
Defined.

(** ** [hasPermission] as an order on role names *)

Lemma js_string_lt_irrefl (a : string) : js_string_lt a a = false.
Proof.
  induction a as [|c a IH]; [reflexivity|]. simpl.
  rewrite N.ltb_irrefl, N.eqb_refl. exact IH.
Qed.

(** If [a < c] then [a < b] or [b < c]: the negation of [<] is transitive. *)
Lemma js_string_lt_split (a b c : string) :
  js_string_lt a c = true -> js_string_lt a b = true \/ js_string_lt b c = true.
Proof.
  revert b c. induction a as [|x a IH]; intros b c Hac.
  - destruct b as [|y b]; [destruct c; [discriminate|right; reflexivity]|].
    left. reflexivity.
  - destruct c as [|z c]; [discriminate|].
    destruct b as [|y b]; [right; reflexivity|].
    simpl in *.
    destruct (N.ltb_spec (N_of_ascii x) (N_of_ascii y)); [left; reflexivity|].
    destruct (N.ltb_spec (N_of_ascii y) (N_of_ascii z)); [right; reflexivity|].
    destruct (N.ltb_spec (N_of_ascii x) (N_of_ascii z)); [lia|].
    destruct (N.eqb_spec (N_of_ascii x) (N_of_ascii z)); [|discriminate].
    destruct (N.eqb_spec (N_of_ascii x) (N_of_ascii y)); [|lia].
    destruct (N.eqb_spec (N_of_ascii y) (N_of_ascii z)); [|lia].
    apply IH. exact Hac.
Qed.

Lemma js_ge_trans (x y z : jsval) :
  js_ge x y = true -> js_ge y z = true -> js_ge x z = true.
Proof.
  destruct x as [nx|px|], y as [ny|py|], z as [nz|pz|]; simpl; try discriminate.
  - rewrite !Z.leb_le. lia.
  - rewrite !negb_true_iff. intros Hxy Hyz.
    destruct (js_string_lt px pz) eqn:Hxz; [|reflexivity].
    destruct (js_string_lt_split px py pz Hxz); congruence.
Qed.



(** [hasPermission] is a preorder on all role strings: reflexive, also on
    the names inherited from [Object.prototype] (their values compare as
    equal strings), and transitive.  An inherited name and any other name
    are incomparable: their values are a string and a number, and the
    string converts to NaN. *)
Theorem hasPermission_preorder (a b c : string) :
  hasPermission a a = true /\
  (hasPermission a b = true -> hasPermission b c = true ->
   hasPermission a c = true) /\
  (a ∈ object_prototype_keys -> b ∉ object_prototype_keys ->
   hasPermission a b = false /\ hasPermission b a = false).
Proof.
  unfold hasPermission. split; [|split].
  - destruct (decide (a ∈ object_prototype_keys)) as [Ha|Ha].
    + rewrite (role_level_proto a Ha). simpl.
      rewrite js_string_lt_irrefl. reflexivity.
    + rewrite (role_level_not_proto a Ha). simpl. apply Z.leb_refl.
  - apply js_ge_trans.
  - intros Ha Hb. rewrite (role_level_proto a Ha), (role_level_not_proto b Hb).
    split; reflexivity.
Qed.

(** ** Rate Limiter *)

(** After [clearAuthFailures] (a successful login), the next request of
    that client passes [authRateLimit] and leaves the map as it is. *)
Theorem clearAuthFailures_then_passes (clientId : string) (now : Z)
    (failedAttempts : gmap string Attempt) :
  authRateLimit clientId now (clearAuthFailures clientId failedAttempts) =
  (RateNext, clearAuthFailures clientId failedAttempts).
Proof.
  unfold authRateLimit, clearAuthFailures. rewrite lookup_delete_eq. reflexivity.
Qed.

(** A failed request of one client never changes the entry of another. *)
Theorem failed_auth_request_other_clients (clientId other : string) (now : Z)
    (failedAttempts : gmap string Attempt) (Hne : other <> clientId) :
  (failed_auth_request clientId now failedAttempts).2 !! other =
  failedAttempts !! other.
Proof.
  unfold failed_auth_request, authRateLimit.
  assert (Htrack : forall m, trackAuthFailure clientId now m !! other = m !! other).
  { intros m. unfold trackAuthFailure.
    destruct (m !! clientId); apply lookup_insert_ne; congruence. }
  destruct (failedAttempts !! clientId) as [a|] eqn:Ha; simpl; [|apply Htrack].
  destruct (Z.ltb _ _); simpl.
  - rewrite Htrack. apply lookup_delete_ne. congruence.
  - destruct (Z.leb _ _); simpl; [reflexivity|apply Htrack].
Qed.

(** Two clients with failures on record: a failure of the first raises
    its count to 5, and the second one's entry stays as it was. *)
Definition two_clients : gmap string Attempt :=
  {[ "10.0.0.7" := mkAttempt 4 login_time; "10.0.0.8" := mkAttempt 3 login_time ]}.

Lemma failed_auth_request_other_clients_witness :
  (failed_auth_request "10.0.0.7" (login_time + 1000) two_clients).2 !! "10.0.0.8" =
  two_clients !! "10.0.0.8" /\
  two_clients !! "10.0.0.8" = Some (mkAttempt 3 login_time).
Proof.
  split.
  - apply failed_auth_request_other_clients. discriminate.
  - reflexivity.
Defined.

(** A blocked request (429) leaves the failure map unchanged, so it does
    not extend the lockout; with no entry dated in the future, the minutes
    it reports lie between 0 and 15, and are 0 exactly when the last
    failure is exactly 15 minutes old. *)
Theorem authRateLimit_blocked (clientId : string) (now : Z)
    (failedAttempts : gmap string Attempt) (minutesLeft : Z)
    (m' : gmap string Attempt)
    (Hpast : forall a, failedAttempts !! clientId = Some a -> lastAttempt a <= now)
    (Hblocked : authRateLimit clientId now failedAttempts = (Rate429 minutesLeft, m')) :
  m' = failedAttempts /\ 0 <= minutesLeft <= 15 /\
  (minutesLeft = 0 <->
   exists a, failedAttempts !! clientId = Some a /\
             now - lastAttempt a = RATE_LIMIT_WINDOW).
Proof.
  unfold authRateLimit in Hblocked.
  destruct (failedAttempts !! clientId) as [a|] eqn:Ha; [|discriminate].
  specialize (Hpast a eq_refl).
  destruct (Z.ltb_spec RATE_LIMIT_WINDOW (now - lastAttempt a)); [discriminate|].
  destruct (Z.leb _ _); [|discriminate].
  injection Hblocked as <- <-. split; [reflexivity|].
  unfold ceil_minutes. unfold RATE_LIMIT_WINDOW in *.
  set (x := 15 * 60 * 1000 - (now - lastAttempt a)).
  pose proof (Z.div_mod (- x) 60000 ltac:(lia)) as Hdm.
  pose proof (Z.mod_pos_bound (- x) 60000 ltac:(lia)) as Hb.
  set (q := - x / 60000) in *. set (r := - x mod 60000) in *.
  split; [lia|]. split.
  - intros Hq. exists a. split; [reflexivity|]. lia.
  - intros (a' & [= <-] & Hd). lia.
Qed.

Lemma authRateLimit_blocked_witness :
  let m := ({[ "10.0.0.7" := mkAttempt 5 login_time ]} : gmap string Attempt) in
  m = m /\ 0 <= 15 <= 15 /\
  (15 = 0 <-> exists a, m !! "10.0.0.7" = Some a /\
                        (login_time + 1000) - lastAttempt a = RATE_LIMIT_WINDOW).
Proof.
  apply (authRateLimit_blocked "10.0.0.7" (login_time + 1000)).
  - intros a Ha. vm_compute in Ha. injection Ha as <-. simpl.
    unfold login_time. lia.
  - vm_compute. reflexivity.
Defined.

(** ** MemStorage *)

Lemma includes_at_nonempty (x : string) : includes_at x = true -> x <> "".
Proof. intros H ->. discriminate. Qed.

(** [upsertUser] then [getUserByEmailOrPhone]: the new user is found by id,
    by its email (which contains an [@]), and by its phone number when that
    is non-empty and contains no [@]. *)
Theorem upsertUser_lookup_roundtrip (st : UserStore) (id email : string)
    (phone : option string) (role passwordHash : string)
    (Hemail : includes_at email = true) :
  let '(user, st') := upsertUser st id email phone role passwordHash in
  getUser st' id = Some user /\
  getUserByEmailOrPhone st' email = Some user /\
  (forall p, phone = Some p -> p <> "" -> includes_at p = false ->
   getUserByEmailOrPhone st' p = Some user).
Proof.
  unfold upsertUser.
  rewrite (js_truthy_str_nonempty email (includes_at_nonempty email Hemail)).
  unfold getUser, getUserByEmailOrPhone. cbn -[js_truthy_str includes_at].
  rewrite Hemail, !lookup_insert_eq. simpl. rewrite lookup_insert_eq.
  split; [reflexivity|]. split; [reflexivity|].
  intros p -> Hp Hat. rewrite (js_truthy_str_nonempty p Hp), Hat.
  simpl. rewrite lookup_insert_eq. simpl. rewrite lookup_insert_eq. reflexivity.
Qed.

Lemma upsertUser_lookup_roundtrip_witness :
  let '(user, st') := upsertUser alice_store "user_9" "erin@example.com"
                        (Some "+998935550101") "client" "" in
  getUser st' "user_9" = Some user /\
  getUserByEmailOrPhone st' "erin@example.com" = Some user /\
  (forall p, Some "+998935550101" = Some p -> p <> "" -> includes_at p = false ->
   getUserByEmailOrPhone st' p = Some user).
Proof.
  apply (upsertUser_lookup_roundtrip alice_store "user_9" "erin@example.com").
  reflexivity.
Defined.

(** A successful password login records the login time on the stored
    user and returns that updated record, while the tokens carry the
    user's id, email and role. *)
Theorem loginWithPassword_records_last_login
    (comparePassword : string -> string -> bool) (env : Env) (now : Z)
    (st : UserStore) (email password : string) (u : User)
    (Hwf : store_wf st) (Hu : getUserByEmail st email = Some u)
    (Hok : lr_success (loginWithPassword comparePassword env now st email password).1
           = true) :
  let '(r, st') := loginWithPassword comparePassword env now st email password in
  let u' := mkUser (u_id u) (u_email u) (u_phone u) (u_passwordHash u)
              (u_role u) (u_isActive u) (Some now) in
  lr_user r = Some u' /\ getUser st' (u_id u) = Some u' /\
  lr_accessToken r = Some (generateAccessToken env now u) /\
  lr_refreshToken r = Some (generateRefreshToken env now u).
Proof.
  revert Hok. unfold loginWithPassword. rewrite Hu.
  destruct (js_truthy_str (u_passwordHash u)) as [hash|]; [|discriminate].
  destruct (u_isActive u) eqn:Ha; [|discriminate].
  destruct (comparePassword password hash); [|discriminate]. intros _.
  unfold getUserByEmail in Hu.
  destruct (usersByEmail st !! email) as [id|]; simpl in Hu; [|discriminate].
  pose proof (Hwf id u Hu) as Hid.
  unfold updateUserLastLogin, getUser. rewrite Hid, Hu. simpl.
  rewrite lookup_insert_eq. rewrite Ha. repeat split; rewrite ?Hid; reflexivity.
Qed.

Lemma alice_store_wf : store_wf alice_store.
Proof.
  intros id v Hv. unfold alice_store in Hv. simpl in Hv.
  rewrite lookup_singleton_Some in Hv. destruct Hv as [<- <-]. reflexivity.
Qed.

Lemma loginWithPassword_records_last_login_witness :
  let '(r, st') := loginWithPassword bcrypt_stub default_env login_time alice_store
                     "alice@example.com" "Passw0rd!" in
  let u' := mkUser (u_id alice) (u_email alice) (u_phone alice)
              (u_passwordHash alice) (u_role alice) (u_isActive alice)
              (Some login_time) in
  lr_user r = Some u' /\ getUser st' (u_id alice) = Some u' /\
  lr_accessToken r = Some (generateAccessToken default_env login_time alice) /\
  lr_refreshToken r = Some (generateRefreshToken default_env login_time alice).
Proof.
  apply loginWithPassword_records_last_login.
  - exact alice_store_wf.
  - reflexivity.
  - vm_compute. reflexivity.
Defined.
